(** * Verification of the AI controller of the interview-preparation server

    Shallow embedding of [src/server/controllers/aiController.js]:
    the response extractor [getGeminiText], the JSON recovery
    [tryParseJSON] and the two request handlers
    [generateInterviewQuestions] and [generateConceptExplanation].

    JavaScript data is embedded as the inductive type [value].  A string is
    a sequence of code units below 256, one [ascii] per code unit; a number
    is an IEEE-754 double (Rocq's primitive [float]).  What the JavaScript
    runtime and the other modules supply (JSON.parse, the formatting of
    numbers, the prompt templates, the provider client, database faults) is
    gathered in the record [Env]; the handlers are functions of an [Env] and
    thread a [World] (the question collection and the log of the calls made)
    through an exception monad. *)

From Stdlib Require Import ZArith Bool List String Ascii Floats Uint63 Lia.
Import ListNotations.
Open Scope string_scope.
Set Warnings "-register-all".

(** ** JavaScript values *)

Inductive value : Type :=
| JUndefined
| JNull
| JBool (b : bool)
| JNum (f : float)
| JStr (s : string)
| JArr (elems : list value)
| JObj (fields : list (string * value)).

(** Result of an evaluation that may throw; [Thrown] carries [err.message]. *)
Inductive outcome (A : Type) : Type :=
| Returned (a : A)
| Thrown (message : string).
Arguments Returned {A} a.
Arguments Thrown {A} message.

Definition obind {A B} (o : outcome A) (k : A -> outcome B) : outcome B :=
  match o with
  | Returned a => k a
  | Thrown m => Thrown m
  end.

Declare Scope outcome_scope.
Delimit Scope outcome_scope with outcome.
Notation "x <~ o ;; k" := (obind o (fun x => k))
  (at level 61, o at next level, right associativity) : outcome_scope.

(** ToBoolean: what [!v], [a && b], [a || b] and [if (v)] observe. *)
Definition truthy (v : value) : bool :=
  match v with
  | JUndefined | JNull => false
  | JBool b => b
  | JNum f => negb (PrimFloat.is_zero f || PrimFloat.is_nan f)
  | JStr s => negb (String.eqb s "")
  | JArr _ | JObj _ => true
  end.

Definition nullish (v : value) : bool :=
  match v with
  | JUndefined | JNull => true
  | _ => false
  end.

(** [typeof v === "object"]; note that it holds of [null]. *)
Definition typeof_is_object (v : value) : bool :=
  match v with
  | JNull | JArr _ | JObj _ => true
  | _ => false
  end.

(** *** Property access *)

Fixpoint assoc (k : string) (fields : list (string * value)) : value :=
  match fields with
  | [] => JUndefined
  | (k', v) :: rest => if String.eqb k k' then v else assoc k rest
  end.

Definition digit_of (c : ascii) : option nat :=
  let n := nat_of_ascii c in
  if (48 <=? n)%nat && (n <=? 57)%nat then Some (n - 48)%nat else None.

Fixpoint digits_value (s : string) (acc : nat) : option nat :=
  match s with
  | EmptyString => Some acc
  | String c r =>
      match digit_of c with
      | Some d => digits_value r (10 * acc + d)%nat
      | None => None
      end
  end.

(** A property key that is a canonical array index: "0", "1", "27", not "01". *)
Definition array_index (k : string) : option nat :=
  match k with
  | EmptyString => None
  | String c r =>
      if Ascii.eqb c "0"
      then (if String.eqb r "" then Some 0%nat else None)
      else digits_value k 0
  end.

Definition number_of_nat (n : nat) : float :=
  PrimFloat.of_uint63 (Uint63.of_Z (Z.of_nat n)).

(** The value of property [k] of a non-nullish [v]: own properties of objects,
    elements and [length] of arrays and strings.  Properties inherited from
    the built-in prototypes are methods; none of the keys the controller
    reads ("candidates", "content", "parts", "text", "explanation", "0" and
    the request fields) names one. *)
Definition own_prop (v : value) (k : string) : value :=
  match v with
  | JObj fields => assoc k fields
  | JArr elems =>
      match array_index k with
      | Some i => nth i elems JUndefined
      | None =>
          if String.eqb k "length" then JNum (number_of_nat (List.length elems))
          else JUndefined
      end
  | JStr s =>
      match array_index k with
      | Some i =>
          match String.get i s with
          | Some c => JStr (String c "")
          | None => JUndefined
          end
      | None =>
          if String.eqb k "length" then JNum (number_of_nat (String.length s))
          else JUndefined
      end
  | _ => JUndefined
  end.

(** [v.k] and [v[k]]: a TypeError on [undefined] and [null]. *)
Definition get_prop (v : value) (k : string) : outcome value :=
  match v with
  | JUndefined =>
      Thrown ("Cannot read properties of undefined (reading '" ++ k ++ "')")
  | JNull =>
      Thrown ("Cannot read properties of null (reading '" ++ k ++ "')")
  | _ => Returned (own_prop v k)
  end.

(** [v?.k] and [v?.[k]]: [undefined] on [undefined] and [null]. *)
Definition opt_get (v : value) (k : string) : value :=
  if nullish v then JUndefined else own_prop v k.

(** ** Strings *)

Definition LF : string := String "010" "".
Definition DQ : string := String "034" "".

(** The white space of [\s] and of [String.prototype.trim] among the code
    units below 256: TAB, LF, VT, FF, CR, SPACE and NBSP. *)
Definition is_space (c : ascii) : bool :=
  let n := nat_of_ascii c in
  ((9 <=? n)%nat && (n <=? 13)%nat) || (n =? 32)%nat || (n =? 160)%nat.

Fixpoint trim_start (s : string) : string :=
  match s with
  | EmptyString => EmptyString
  | String c r => if is_space c then trim_start r else s
  end.

Fixpoint trim_end (s : string) : string :=
  match s with
  | EmptyString => EmptyString
  | String c r =>
      match trim_end r with
      | EmptyString => if is_space c then EmptyString else String c EmptyString
      | r' => String c r'
      end
  end.

Definition trim (s : string) : string := trim_end (trim_start s).

Fixpoint strip_prefix (p s : string) : option string :=
  match p, s with
  | EmptyString, _ => Some s
  | String a p', String b s' => if Ascii.eqb a b then strip_prefix p' s' else None
  | String _ _, EmptyString => None
  end.

(** [s.replace(/^```json\s*/, "")]: the anchored pattern matches only at the
    start, needs the tag [json], and [\s*] takes the longest run of white
    space. *)
Definition strip_open (s : string) : string :=
  match strip_prefix "```json" s with
  | Some r => trim_start r
  | None => s
  end.

(** [s.replace(/```$/, "")]: without the [m] flag [$] is the end of the
    input, so the only possible match is the last three code units. *)
Fixpoint strip_close (s : string) : string :=
  match s with
  | EmptyString => EmptyString
  | String c r => if String.eqb s "```" then EmptyString else String c (strip_close r)
  end.

(** The argument of the second JSON.parse (lines 30-33). *)
Definition cleaned (text : string) : string :=
  trim (strip_close (strip_open text)).

Fixpoint join (sep : string) (l : list string) : string :=
  match l with
  | [] => ""
  | [x] => x
  | x :: rest => x ++ sep ++ join sep rest
  end.

(** ** Conversions to strings *)

Definition hex_digit (n : nat) : ascii :=
  if (n <? 10)%nat then ascii_of_nat (48 + n) else ascii_of_nat (87 + n).

(** QuoteJSONString, one code unit. *)
Definition quote_char (c : ascii) : string :=
  let n := nat_of_ascii c in
  if (n =? 8)%nat then "\b"
  else if (n =? 9)%nat then "\t"
  else if (n =? 10)%nat then "\n"
  else if (n =? 12)%nat then "\f"
  else if (n =? 13)%nat then "\r"
  else if (n =? 34)%nat then "\" ++ DQ
  else if (n =? 92)%nat then "\\"
  else if (n <? 32)%nat
       then "\u00" ++ String (hex_digit (n / 16)) (String (hex_digit (n mod 16)) "")
       else String c "".

Fixpoint quote_body (s : string) : string :=
  match s with
  | EmptyString => EmptyString
  | String c r => quote_char c ++ quote_body r
  end.

Definition quote (s : string) : string := DQ ++ quote_body s ++ DQ.

Definition is_finite (f : float) : bool :=
  negb (PrimFloat.is_nan f || PrimFloat.is_infinity f).

Section Conversions.

(** Number::toString, supplied by the runtime. *)
Variable Number_toString : float -> string.

(** ToString, as applied by a template literal and by JSON.parse to its
    argument. *)
Fixpoint ToString (v : value) : string :=
  match v with
  | JUndefined => "undefined"
  | JNull => "null"
  | JBool b => if b then "true" else "false"
  | JNum f => Number_toString f
  | JStr s => s
  | JArr elems =>
      join "," (map (fun x => if nullish x then "" else ToString x) elems)
  | JObj _ => "[object Object]"
  end.

(** SerializeJSONProperty: [None] stands for [undefined]. *)
Fixpoint serialize (v : value) : option string :=
  match v with
  | JUndefined => None
  | JNull => Some "null"
  | JBool b => Some (if b then "true" else "false")
  | JNum f => Some (if is_finite f then Number_toString f else "null")
  | JStr s => Some (quote s)
  | JArr elems =>
      Some ("[" ++ join ","
              (map (fun x => match serialize x with
                             | Some s => s
                             | None => "null"
                             end) elems) ++ "]")
  | JObj fields =>
      Some ("{" ++ join ","
              (flat_map (fun kv => match serialize (snd kv) with
                                   | Some s => [quote (fst kv) ++ ":" ++ s]
                                   | None => []
                                   end) fields) ++ "}")
  end.

(** [JSON.stringify(v)] with one argument. *)
Definition JSON_stringify (v : value) : value :=
  match serialize v with
  | Some s => JStr s
  | None => JUndefined
  end.

End Conversions.

(** ** The environment of the controller *)

(** What the controller imports or calls and this file does not define.
    [JSON_parse] is the runtime's JSON.parse on a string: the value, or the
    message of the SyntaxError.  [generateContent] is
    [ai.models.generateContent]: the provider's response, or the message of
    the rejection.  The two prompt templates come from [../utils/prompt.js].
    The two fault fields say when a database call rejects (connection lost,
    identifier that cannot be cast) and with which message. *)
Record Env : Type := {
  JSON_parse : string -> outcome value;
  Number_toString : float -> string;
  questionAnswerPrompt : value -> value -> value -> value -> string;
  conceptExplainPrompt : value -> string;
  generateContent : value -> outcome value;
  findById_fault : value -> option string;
  findByIdAndUpdate_fault : value -> string -> option string
}.

(** Modelled from the spec: the Question entity of [../models/QuestionModel.js],
    a persisted record with an identifier, an answer text field that may be
    absent, and other fields set elsewhere. *)
Record Question : Type := {
  qid : string;
  answer : option string;
  others : list (string * value)
}.

(** The calls the controller makes, in the order it makes them. *)
Inductive event : Type :=
| EvGenerateContent (request : value)
| EvJSONParse (text : string)
| EvFindById (id : value)
| EvFindByIdAndUpdate (id : value) (newAnswer : string)
| EvConsoleError (message : string).

Record World : Type := {
  store : list Question;
  log : list event
}.

Record response : Type := {
  status : nat;
  body : value
}.

(** The object [tryParseJSON] returns. *)
Record parse_result : Type := {
  json : value;
  error : value
}.

(** *** The monad of the handlers: state and exceptions *)

Definition M (A : Type) : Type := World -> outcome A * World.

Definition ret {A} (a : A) : M A := fun w => (Returned a, w).

Definition bind {A B} (m : M A) (k : A -> M B) : M B :=
  fun w =>
    match m w with
    | (Returned a, w') => k a w'
    | (Thrown msg, w') => (Thrown msg, w')
    end.

Definition lift {A} (o : outcome A) : M A := fun w => (o, w).

Definition emit (e : event) : M unit :=
  fun w => (Returned tt, {| store := store w; log := log w ++ [e] |}).

(** [try { m } catch (err) { h err.message }]: what [m] did before it threw
    stays done. *)
Definition try_catch {A} (m : M A) (h : string -> M A) : M A :=
  fun w =>
    match m w with
    | (Returned a, w') => (Returned a, w')
    | (Thrown msg, w') => h msg w'
    end.

Declare Scope handler_scope.
Delimit Scope handler_scope with handler.
Notation "x <- m ;; k" := (bind m (fun x => k))
  (at level 61, m at next level, right associativity) : handler_scope.
Notation "m ;;; k" := (bind m (fun _ => k))
  (at level 61, right associativity) : handler_scope.

(** *** The question collection *)

(** Modelled from the spec: find-by-id.  An identifier matches the record
    whose identifier is that string. *)
Definition find_question (id : value) (st : list Question) : option Question :=
  match id with
  | JStr s => find (fun q => String.eqb (qid q) s) st
  | _ => None
  end.

(** Modelled from the spec: update-by-id with [{ answer: a }]; the other
    fields and the other records stay as they are. *)
Fixpoint update_answer (id : string) (a : string) (st : list Question)
  : list Question :=
  match st with
  | [] => []
  | q :: rest =>
      if String.eqb (qid q) id
      then {| qid := qid q; answer := Some a; others := others q |} :: rest
      else q :: update_answer id a rest
  end.

(** A record as it appears in a response body. *)
Definition doc_value (q : option Question) : value :=
  match q with
  | None => JNull
  | Some q =>
      JObj (("_id", JStr (qid q))
              :: match answer q with
                 | Some a => [("answer", JStr a)]
                 | None => []
                 end ++ others q)
  end.

Definition respond (code : nat) (payload : value) : M response :=
  ret {| status := code; body := payload |}.

(** ** The controller *)

(** [getGeminiText] (lines 18-23).  The condition reads the path with
    optional chaining after a plain read of [candidates]; the [return]
    reads it again with plain accesses. *)
Definition getGeminiText (response : value) : outcome value :=
  (cond <~ (if truthy response
            then (candidates <~ get_prop response "candidates" ;;
                  Returned
                    (opt_get
                       (opt_get
                          (opt_get (opt_get (opt_get candidates "0") "content")
                             "parts") "0") "text"))
            else Returned response) ;;
   if truthy cond
   then (candidates <~ get_prop response "candidates" ;;
         first <~ get_prop candidates "0" ;;
         content <~ get_prop first "content" ;;
         parts <~ get_prop content "parts" ;;
         part <~ get_prop parts "0" ;;
         get_prop part "text")
   else Returned JNull)%outcome.

(** [const { k } = source]: a TypeError when [source] is [undefined] or
    [null]. *)
Definition destructure (source : value) (what k : string) : outcome value :=
  match source with
  | JUndefined =>
      Thrown ("Cannot destructure property '" ++ k ++ "' of '" ++ what
                ++ "' as it is undefined.")
  | JNull =>
      Thrown ("Cannot destructure property '" ++ k ++ "' of '" ++ what
                ++ "' as it is null.")
  | _ => Returned (own_prop source k)
  end.

(** The explanation of lines 106-111. *)
Definition deriveExplanation (toStr : float -> string) (json text : value)
  : outcome value :=
  if truthy (opt_get json "explanation")
  then get_prop json "explanation"
  else Returned (if typeof_is_object json then JSON_stringify toStr json
                 else text).

Definition SEPARATOR : string := LF ++ LF ++ "Explanation:" ++ LF.

(** The template literal of lines 118-120. *)
Definition newAnswer (toStr : float -> string) (existingQuestion : Question)
  (explanation : value) : string :=
  match answer existingQuestion with
  | Some a => a
  | None => ""
  end ++ SEPARATOR ++ ToString toStr explanation.

Section Controller.

Variable E : Env.

Local Open Scope handler_scope.

Definition JSON_parse_call (text : string) : M value :=
  emit (EvJSONParse text) ;;; lift (JSON_parse E text).

Definition generateContent_call (request : value) : M value :=
  emit (EvGenerateContent request) ;;; lift (generateContent E request).

Definition findById (id : value) : M (option Question) :=
  emit (EvFindById id) ;;;
  match findById_fault E id with
  | Some msg => lift (Thrown msg)
  | None => fun w => (Returned (find_question id (store w)), w)
  end.

(** [Question.findByIdAndUpdate(id, { answer: a }, { new: true })]: the
    record after the update, or [null] when no record matches. *)
Definition findByIdAndUpdate (id : value) (a : string) : M (option Question) :=
  emit (EvFindByIdAndUpdate id a) ;;;
  match findByIdAndUpdate_fault E id a with
  | Some msg => lift (Thrown msg)
  | None =>
      fun w =>
        match id with
        | JStr s =>
            let st := update_answer s a (store w) in
            (Returned (find_question id st), {| store := st; log := log w |})
        | _ => (Returned None, w)
        end
  end.

(** [console.error(label, error.message)]: the label is a constant of each
    handler, the event keeps the message. *)
Definition console_error (message : string) : M unit :=
  emit (EvConsoleError message).

(** [text.replace(...)...] of lines 30-33: on a value that is not a string,
    [text.replace] is not callable. *)
Definition clean_call (text : value) : outcome string :=
  match text with
  | JStr s => Returned (cleaned s)
  | JUndefined =>
      Thrown "Cannot read properties of undefined (reading 'replace')"
  | JNull => Thrown "Cannot read properties of null (reading 'replace')"
  | _ => Thrown "text.replace is not a function"
  end.

(** [tryParseJSON] (lines 26-40). *)
Definition tryParseJSON (text : value) : M parse_result :=
  try_catch
    (parsed <- JSON_parse_call (ToString (Number_toString E) text) ;;
     ret {| json := parsed; error := JNull |})
    (fun _ =>
       cleaned_text <- lift (clean_call text) ;;
       try_catch
         (parsed <- JSON_parse_call cleaned_text ;;
          ret {| json := parsed; error := JNull |})
         (fun message => ret {| json := JNull; error := JStr message |})).

Definition MODEL : string := "gemini-2.0-flash-lite".

Definition provider_request (prompt : string) : value :=
  JObj [("model", JStr MODEL);
        ("contents", JArr [JObj [("text", JStr prompt)]])].

(** [generateInterviewQuestions] (lines 43-82), applied to [req.body]. *)
Definition generateInterviewQuestions (req_body : value) : M response :=
  try_catch
    (role <- lift (destructure req_body "req.body" "role") ;;
     experience <- lift (destructure req_body "req.body" "experience") ;;
     topicsToFocus <- lift (destructure req_body "req.body" "topicsToFocus") ;;
     numberOfQuestions <-
       lift (destructure req_body "req.body" "numberOfQuestions") ;;
     if negb (truthy role) || negb (truthy experience)
        || negb (truthy topicsToFocus) || negb (truthy numberOfQuestions)
     then respond 400 (JObj [("message", JStr "Missing required fields")])
     else
       let prompt :=
         questionAnswerPrompt E role experience topicsToFocus numberOfQuestions
       in
       response <- generateContent_call (provider_request prompt) ;;
       text <- lift (getGeminiText response) ;;
       if negb (truthy text)
       then respond 500 (JObj [("message", JStr "No response from Gemini")])
       else
         parsed <- tryParseJSON text ;;
         if truthy (json parsed)
         then respond 200 (JObj [("questions", json parsed)])
         else respond 500 (JObj [("message", JStr "Gemini returned invalid JSON");
                                 ("raw", text);
                                 ("error", error parsed)]))
    (fun message =>
       console_error message ;;;
       respond 500 (JObj [("message", JStr "Failed to generate questions");
                          ("error", JStr message)])).

(** Lines 113-127, the part of the handler the specification calls
    appendExplanation: the lookup, the new answer and the update. *)
Definition appendExplanation (questionId explanation : value) : M response :=
  existingQuestion <- findById questionId ;;
  match existingQuestion with
  | None => respond 404 (JObj [("message", JStr "Question not found")])
  | Some existing =>
      updatedQuestion <-
        findByIdAndUpdate questionId
          (newAnswer (Number_toString E) existing explanation) ;;
      respond 200 (JObj [("question", doc_value updatedQuestion)])
  end.

(** [generateConceptExplanation] (lines 85-135), applied to [req.body]. *)
Definition generateConceptExplanation (req_body : value) : M response :=
  try_catch
    (questionId <- lift (destructure req_body "req.body" "questionId") ;;
     question <- lift (destructure req_body "req.body" "question") ;;
     if negb (truthy questionId) || negb (truthy question)
     then respond 400 (JObj [("message", JStr "Missing required fields")])
     else
       let prompt := conceptExplainPrompt E question in
       response <- generateContent_call (provider_request prompt) ;;
       text <- lift (getGeminiText response) ;;
       if negb (truthy text)
       then respond 500 (JObj [("message", JStr "No response from Gemini")])
       else
         parsed <- tryParseJSON text ;;
         explanation <-
           lift (deriveExplanation (Number_toString E) (json parsed) text) ;;
         appendExplanation questionId explanation)
    (fun message =>
       console_error message ;;;
       respond 500 (JObj [("message", JStr "Failed to generate explanation");
                          ("error", JStr message)])).

End Controller.

(** ** A reference runtime

    An executable JSON.parse and Number::toString over the values above,
    used to run the controller on concrete inputs.  The parser follows the
    JSON grammar of ECMA-404; a number literal is rounded to the nearest
    double, ties to even.  It differs from an engine's JSON.parse in three
    ways, none of which the theorems over an arbitrary [Env] depend on: an
    escape [\uXXXX] above 00FF denotes a code unit outside the strings of
    this file and is reported as an error; the members of an object are
    kept in the order of the text, where an engine lists the keys that are
    array indices first; and the text of the error message, which is the
    engine's own business, is one fixed message. *)

Module Reference.

Local Open Scope Z_scope.

Definition is_json_ws (c : ascii) : bool :=
  let n := nat_of_ascii c in
  ((n =? 9) || (n =? 10) || (n =? 13) || (n =? 32))%nat.

Fixpoint skip_ws (s : string) : string :=
  match s with
  | EmptyString => EmptyString
  | String c r => if is_json_ws c then skip_ws r else s
  end.

(** The double nearest to [(-1)^neg * m * 10^e10], for [0 <= m]. *)
Definition decimal_to_float (neg : bool) (m e10 : Z) : float :=
  match m with
  | Z0 => if neg then neg_zero else zero
  | Zpos p =>
      if 0 <=? e10
      then SF2Prim (binary_normalize prec emax
                      ((if neg then - m else m) * 10 ^ e10) 0 false)
      else SF2Prim (SFdiv prec emax (S754_finite neg p 0)
                      (S754_finite false (Z.to_pos (10 ^ (- e10))) 0))
  | Zneg _ => nan
  end.

(** Reads a run of decimal digits: the number read after [acc], how many
    digits there were, and what follows. *)
Fixpoint take_digits (s : string) (acc count : Z) : Z * Z * string :=
  match s with
  | EmptyString => (acc, count, s)
  | String c r =>
      match digit_of c with
      | Some d => take_digits r (10 * acc + Z.of_nat d) (count + 1)
      | None => (acc, count, s)
      end
  end.

Definition parse_exponent (s : string) : option (Z * string) :=
  match s with
  | String c r =>
      if Ascii.eqb c "e" || Ascii.eqb c "E"
      then
        let '(neg, r1) :=
          match r with
          | String sg r' =>
              if Ascii.eqb sg "-" then (true, r')
              else if Ascii.eqb sg "+" then (false, r')
              else (false, r)
          | EmptyString => (false, r)
          end in
        let '(e, n, r2) := take_digits r1 0 0 in
        if n =? 0 then None else Some (if neg then - e else e, r2)
      else Some (0, s)
  | EmptyString => Some (0, s)
  end.

Definition parse_fraction (intpart : Z) (s : string) : option (Z * Z * string) :=
  match s with
  | String c r =>
      if Ascii.eqb c "."
      then
        let '(m, n, r1) := take_digits r intpart 0 in
        if n =? 0 then None else Some (m, n, r1)
      else Some (intpart, 0, s)
  | EmptyString => Some (intpart, 0, s)
  end.

Definition parse_number (s : string) : option (value * string) :=
  let '(neg, s1) :=
    match s with
    | String c r => if Ascii.eqb c "-" then (true, r) else (false, s)
    | EmptyString => (false, s)
    end in
  match s1 with
  | String c r =>
      match digit_of c with
      | None => None
      | Some d =>
          let '(intpart, _, r1) :=
            if (d =? 0)%nat then (0, 1, r) else take_digits s1 0 0 in
          match parse_fraction intpart r1 with
          | None => None
          | Some (m, fdigits, r2) =>
              match parse_exponent r2 with
              | None => None
              | Some (e, r3) =>
                  Some (JNum (decimal_to_float neg m (e - fdigits)), r3)
              end
          end
      end
  | EmptyString => None
  end.

Definition hex_value (c : ascii) : option nat :=
  let n := nat_of_ascii c in
  if ((48 <=? n) && (n <=? 57))%nat then Some (n - 48)%nat
  else if ((65 <=? n) && (n <=? 70))%nat then Some (n - 55)%nat
  else if ((97 <=? n) && (n <=? 102))%nat then Some (n - 87)%nat
  else None.

Definition parse_unicode_escape (s : string) : option (ascii * string) :=
  match s with
  | String a (String b (String c (String d r))) =>
      match hex_value a, hex_value b, hex_value c, hex_value d with
      | Some 0%nat, Some 0%nat, Some h, Some l =>
          Some (ascii_of_nat (16 * h + l), r)
      | _, _, _, _ => None
      end
  | _ => None
  end.

(** The characters of a string literal, after the opening quote. *)
Fixpoint parse_chars (fuel : nat) (s : string) : option (string * string) :=
  match fuel with
  | O => None
  | S fuel =>
      match s with
      | EmptyString => None
      | String c r =>
          if Ascii.eqb c "034" then Some (EmptyString, r)
          else if Ascii.eqb c "\" then
            match r with
            | EmptyString => None
            | String e r' =>
                let plain (x : ascii) :=
                  match parse_chars fuel r' with
                  | Some (t, rest) => Some (String x t, rest)
                  | None => None
                  end in
                if Ascii.eqb e "034" then plain "034"%char
                else if Ascii.eqb e "\" then plain "\"%char
                else if Ascii.eqb e "/" then plain "/"%char
                else if Ascii.eqb e "b" then plain "008"%char
                else if Ascii.eqb e "f" then plain "012"%char
                else if Ascii.eqb e "n" then plain "010"%char
                else if Ascii.eqb e "r" then plain "013"%char
                else if Ascii.eqb e "t" then plain "009"%char
                else if Ascii.eqb e "u" then
                  match parse_unicode_escape r' with
                  | Some (x, r'') =>
                      match parse_chars fuel r'' with
                      | Some (t, rest) => Some (String x t, rest)
                      | None => None
                      end
                  | None => None
                  end
                else None
            end
          else if (nat_of_ascii c <? 32)%nat then None
          else
            match parse_chars fuel r with
            | Some (t, rest) => Some (String c t, rest)
            | None => None
            end
      end
  end.

(** A later member with the same key replaces the value of the earlier one. *)
Fixpoint set_field (k : string) (v : value) (fields : list (string * value))
  : list (string * value) :=
  match fields with
  | [] => [(k, v)]
  | (k', v') :: rest =>
      if String.eqb k k' then (k, v) :: rest else (k', v') :: set_field k v rest
  end.

Fixpoint parse_value (fuel : nat) (s : string) : option (value * string) :=
  match fuel with
  | O => None
  | S fuel =>
      match skip_ws s with
      | EmptyString => None
      | String c r as s' =>
          if Ascii.eqb c "{" then
            match skip_ws r with
            | String "}" r' => Some (JObj [], r')
            | _ => parse_members fuel r []
            end
          else if Ascii.eqb c "[" then
            match skip_ws r with
            | String "]" r' => Some (JArr [], r')
            | _ => parse_elements fuel r []
            end
          else if Ascii.eqb c "034" then
            match parse_chars (S (String.length r)) r with
            | Some (t, rest) => Some (JStr t, rest)
            | None => None
            end
          else
            match strip_prefix "true" s', strip_prefix "false" s',
                  strip_prefix "null" s' with
            | Some rest, _, _ => Some (JBool true, rest)
            | _, Some rest, _ => Some (JBool false, rest)
            | _, _, Some rest => Some (JNull, rest)
            | None, None, None => parse_number s'
            end
      end
  end

with parse_elements (fuel : nat) (s : string) (acc : list value)
  : option (value * string) :=
  match fuel with
  | O => None
  | S fuel =>
      match parse_value fuel s with
      | None => None
      | Some (v, r) =>
          match skip_ws r with
          | String c r' =>
              if Ascii.eqb c "," then parse_elements fuel r' (acc ++ [v])
              else if Ascii.eqb c "]" then Some (JArr (acc ++ [v]), r')
              else None
          | EmptyString => None
          end
      end
  end

with parse_members (fuel : nat) (s : string) (acc : list (string * value))
  : option (value * string) :=
  match fuel with
  | O => None
  | S fuel =>
      match skip_ws s with
      | String q r =>
          if Ascii.eqb q "034" then
            match parse_chars (S (String.length r)) r with
            | None => None
            | Some (k, r1) =>
                match skip_ws r1 with
                | String ":" r2 =>
                    match parse_value fuel r2 with
                    | None => None
                    | Some (v, r3) =>
                        match skip_ws r3 with
                        | String c r4 =>
                            if Ascii.eqb c ","
                            then parse_members fuel r4 (set_field k v acc)
                            else if Ascii.eqb c "}"
                                 then Some (JObj (set_field k v acc), r4)
                                 else None
                        | EmptyString => None
                        end
                    end
                | _ => None
                end
            end
          else None
      | EmptyString => None
      end
  end.

Definition SYNTAX_ERROR : string := "Unexpected token in JSON".

Definition JSON_parse (text : string) : outcome value :=
  match parse_value (2 * String.length text + 2) text with
  | Some (v, rest) =>
      match skip_ws rest with
      | EmptyString => Returned v
      | _ => Thrown SYNTAX_ERROR
      end
  | None => Thrown SYNTAX_ERROR
  end.


(** *** Number::toString *)

Fixpoint decimal_digits (fuel : nat) (n : Z) (acc : string) : string :=
  match fuel with
  | O => acc
  | S fuel =>
      let acc' := String (ascii_of_nat (48 + Z.to_nat (n mod 10))) acc in
      if n / 10 =? 0 then acc' else decimal_digits fuel (n / 10) acc'
  end.

Definition Z_digits (n : Z) : string :=
  decimal_digits (S (Z.to_nat (Z.log2 n))) n "".

Fixpoint zeros (n : nat) : string :=
  match n with
  | O => ""
  | S n => String "0" (zeros n)
  end.

Fixpoint strip_zeros (s : string) : string :=
  match s with
  | EmptyString => EmptyString
  | String c r =>
      match strip_zeros r with
      | EmptyString => if Ascii.eqb c "0" then EmptyString else String c ""
      | r' => String c r'
      end
  end.

(** [num / den < 10 ^ n], for positive [num] and [den]. *)
Definition below_pow10 (num den n : Z) : bool :=
  if 0 <=? n then num <? den * 10 ^ n else num * 10 ^ (- n) <? den.

(** The least [n] with [num / den < 10 ^ n], searched downwards from an
    [n] that has the property. *)
Fixpoint find_exponent (fuel : nat) (num den n : Z) : Z :=
  match fuel with
  | O => n
  | S fuel =>
      if below_pow10 num den (n - 1) then find_exponent fuel num den (n - 1)
      else n
  end.

(** The digits [s] of length [k] and the exponent [n] of Number::toString:
    the least [k] for which some [s * 10 ^ (n - k)] is read back as [x],
    and then the [s] nearest to [x = num / den]. *)
Fixpoint shortest (fuel : nat) (x : float) (num den n k : Z) : Z * Z :=
  match fuel with
  | O => (0, k)
  | S fuel =>
      let lo :=
        if 0 <=? n - k then num / (den * 10 ^ (n - k))
        else (num * 10 ^ (k - n)) / den in
      let hi := lo + 1 in
      let back s := PrimFloat.eqb (decimal_to_float false s (n - k)) x in
      let twice_x := if 0 <=? n - k then 2 * num else 2 * num * 10 ^ (k - n) in
      let middle :=
        if 0 <=? n - k then (2 * lo + 1) * 10 ^ (n - k) * den
        else (2 * lo + 1) * den in
      let lo_nearer :=
        (twice_x <? middle) || ((twice_x =? middle) && Z.even lo) in
      match back lo, back hi with
      | true, true => (if lo_nearer then lo else hi, k)
      | true, false => (lo, k)
      | false, true => (hi, k)
      | false, false => shortest fuel x num den n (k + 1)
      end
  end.

Definition format_digits (ds : string) (n : Z) : string :=
  let k := Z.of_nat (String.length ds) in
  if (k <=? n) && (n <=? 21) then ds ++ zeros (Z.to_nat (n - k))
  else if (0 <? n) && (n <=? 21)
  then substring 0 (Z.to_nat n) ds ++ "."
         ++ substring (Z.to_nat n) (Z.to_nat (k - n)) ds
  else if (-6 <? n) && (n <=? 0) then "0." ++ zeros (Z.to_nat (- n)) ++ ds
  else
    let e := n - 1 in
    let exponent := (if e <? 0 then "e-" else "e+") ++ Z_digits (Z.abs e) in
    if k =? 1 then ds ++ exponent
    else substring 0 1 ds ++ "." ++ substring 1 (Z.to_nat (k - 1)) ds
           ++ exponent.

Definition positive_to_string (x : float) (m : positive) (e : Z) : string :=
  let num := if 0 <=? e then Zpos m * 2 ^ e else Zpos m in
  let den := if 0 <=? e then 1 else 2 ^ (- e) in
  let guess := (Z.log2 num - Z.log2 den + 1) * 30103 / 100000 + 2 in
  let n := find_exponent 8 num den guess in
  let '(s, k) := shortest 17 x num den n 1 in
  let ds := Z_digits s in
  format_digits (strip_zeros ds) (n + (Z.of_nat (String.length ds) - k)).

Definition Number_toString (x : float) : string :=
  match Prim2SF x with
  | S754_nan => "NaN"
  | S754_zero _ => "0"
  | S754_infinity neg => if neg then "-Infinity" else "Infinity"
  | S754_finite neg m e =>
      (if neg then "-" else "") ++ positive_to_string (PrimFloat.abs x) m e
  end.

End Reference.

(** *** Concrete environments *)

(** A provider response whose first candidate carries [text]. *)
Definition response_with_text (text : string) : value :=
  JObj [("candidates",
         JArr [JObj [("content",
                      JObj [("parts", JArr [JObj [("text", JStr text)]])])]])].

(** The reference runtime around a given provider, with a database that
    never fails.  The two templates stand in for [../utils/prompt.js]. *)
Definition reference_env (provider : value -> outcome value) : Env := {|
  JSON_parse := Reference.JSON_parse;
  Number_toString := Reference.Number_toString;
  questionAnswerPrompt := fun role experience topics n =>
    "Generate " ++ ToString Reference.Number_toString n
      ++ " interview questions for a "
      ++ ToString Reference.Number_toString role ++ " with "
      ++ ToString Reference.Number_toString experience
      ++ " years of experience on "
      ++ ToString Reference.Number_toString topics;
  conceptExplainPrompt := fun question =>
    "Explain: " ++ ToString Reference.Number_toString question;
  generateContent := provider;
  findById_fault := fun _ => None;
  findByIdAndUpdate_fault := fun _ _ => None
|}.

Definition answering (text : string) : value -> outcome value :=
  fun _ => Returned (response_with_text text).

Definition failing (message : string) : value -> outcome value :=
  fun _ => Thrown message.

Definition empty_world : World := {| store := []; log := [] |}.

(** ** Vocabulary of the specification *)

(** [x] is the value of property [k] of [v], and [v] can be read. *)
Definition has_prop (v : value) (k : string) (x : value) : Prop :=
  nullish v = false /\ own_prop v k = x.

(** [t] sits at first candidate -> content -> first part -> text. *)
Definition text_at_path (response t : value) : Prop :=
  exists candidates first content parts part,
    has_prop response "candidates" candidates /\
    has_prop candidates "0" first /\
    has_prop first "content" content /\
    has_prop content "parts" parts /\
    has_prop parts "0" part /\
    has_prop part "text" t.

(** A request field that is absent ([undefined], [null]) or empty. *)
Definition absent_or_empty (v : value) : Prop :=
  v = JUndefined \/ v = JNull \/ v = JStr "".

(** A request field that is present: neither absent nor empty. *)
Definition present (v : value) : Prop := ~ absent_or_empty v.

Definition MISSING_FIELDS : response :=
  {| status := 400; body := JObj [("message", JStr "Missing required fields")] |}.


(** The text [{"a":1}], the same inside a fence tagged [json], and the same
    inside a fence with no tag. *)
Definition OBJECT_EXAMPLE : string := "{" ++ DQ ++ "a" ++ DQ ++ ":1}".

Definition FENCED_EXAMPLE : string :=
  "```json" ++ LF ++ OBJECT_EXAMPLE ++ LF ++ "```".

Definition BARE_FENCE_EXAMPLE : string :=
  "```" ++ LF ++ OBJECT_EXAMPLE ++ LF ++ "```".

Definition INVALID_JSON (text : string) (message : string) : response :=
  {| status := 500;
     body := JObj [("message", JStr "Gemini returned invalid JSON");
                   ("raw", JStr text);
                   ("error", JStr message)] |}.

Definition generation_body : value :=
  JObj [("role", JStr "Backend Developer");
        ("experience", JStr "2");
        ("topicsToFocus", JStr "Node.js");
        ("numberOfQuestions", JNum 5)].

Definition NOT_FOUND : response :=
  {| status := 404; body := JObj [("message", JStr "Question not found")] |}.

Definition NO_RESPONSE : response :=
  {| status := 500; body := JObj [("message", JStr "No response from Gemini")] |}.

Definition EXPLANATION_FAILED (message : string) : response :=
  {| status := 500;
     body := JObj [("message", JStr "Failed to generate explanation");
                   ("error", JStr message)] |}.

(** A stored question with answer [A], and a request to explain it. *)
Definition sample_question : Question :=
  {| qid := "q1";
     answer := Some "A";
     others := [("question", JStr "What is a closure?")] |}.

Definition sample_world : World := {| store := [sample_question]; log := [] |}.

Definition explanation_body : value :=
  JObj [("questionId", JStr "q1"); ("question", JStr "What is a closure?")].

Definition is_parse (e : event) : bool :=
  match e with
  | EvJSONParse _ => true
  | _ => false
  end.

(** The opening fence as the specification words it, with an optional
    language tag: a fence with no tag is removed too. *)
Definition spec_strip_open (s : string) : string :=
  match strip_prefix "```" s with
  | Some r =>
      trim_start (match strip_prefix "json" r with
                  | Some r' => r'
                  | None => r
                  end)
  | None => s
  end.

Definition spec_cleaned (text : string) : string :=
  trim (strip_close (spec_strip_open text)).

Fixpoint all_space (s : string) : bool :=
  match s with
  | EmptyString => true
  | String c r => is_space c && all_space r
  end.

(** The events of [after] that were not yet in [before]. *)
Definition new_events (before after : World) : list event :=
  skipn (List.length (log before)) (log after).

Definition is_update (e : event) : bool :=
  match e with
  | EvFindByIdAndUpdate _ _ => true
  | _ => false
  end.

(** ** Vocabulary of the further properties *)

Definition starts_with_space (s : string) : bool :=
  match s with
  | EmptyString => false
  | String c _ => is_space c
  end.

Fixpoint ends_with_space (s : string) : bool :=
  match s with
  | EmptyString => false
  | String c r =>
      match r with
      | EmptyString => is_space c
      | String _ _ => ends_with_space r
      end
  end.

(** [s] ends with the closing fence. *)
Definition ends_with_fence (s : string) : Prop := exists p, s = p ++ "```".

Definition count_events (p : event -> bool) (l : list event) : nat :=
  List.length (filter p l).

Definition is_generate (e : event) : bool :=
  match e with
  | EvGenerateContent _ => true
  | _ => false
  end.

Definition is_lookup (e : event) : bool :=
  match e with
  | EvFindById _ => true
  | _ => false
  end.

Definition is_console (e : event) : bool :=
  match e with
  | EvConsoleError _ => true
  | _ => false
  end.

Definition QUESTIONS_FAILED (message : string) : response :=
  {| status := 500;
     body := JObj [("message", JStr "Failed to generate questions");
                   ("error", JStr message)] |}.

(** The answer a record holds, as [existingQuestion.answer || ""] reads it. *)
Definition prior_answer (q : Question) : string :=
  match answer q with
  | Some a => a
  | None => ""
  end.

(** What a run of the generate-questions handler can be seen to have done:
    the response [r], and the calls [evs] it added to the log. *)
Record questions_run_ok (r : response) (evs : list event) : Prop := {
  qr_status : status r = 200 \/ status r = 400 \/ status r = 500;
  qr_no_lookup : count_events is_lookup evs = 0%nat;
  qr_no_update : count_events is_update evs = 0%nat;
  qr_one_call : (count_events is_generate evs <= 1)%nat;
  qr_two_parses : (count_events is_parse evs <= 2)%nat;
  qr_message :
    status r <> 200 -> exists m, own_prop (body r) "message" = JStr m;
  qr_questions :
    status r = 200 ->
    exists v, body r = JObj [("questions", v)] /\ truthy v = true;
  qr_console :
    (count_events is_console evs = 1%nat /\ exists m, r = QUESTIONS_FAILED m) \/
    (count_events is_console evs = 0%nat /\ forall m, r <> QUESTIONS_FAILED m)
}.

Definition with_answer (q : Question) (a : string) : Question :=
  {| qid := qid q; answer := Some a; others := others q |}.

(** What a run of the explanation handler for [questionId] can be seen to
    have done: the response [r], the calls [evs] it added to the log, and
    the questions before ([st]) and after ([st']). *)
Record explanation_run_ok (questionId : value) (st st' : list Question)
  (r : response) (evs : list event) : Prop := {
  er_status : status r = 200 \/ status r = 400 \/ status r = 404 \/ status r = 500;
  er_one_call : (count_events is_generate evs <= 1)%nat;
  er_two_parses : (count_events is_parse evs <= 2)%nat;
  er_one_lookup : (count_events is_lookup evs <= 1)%nat;
  er_update_after_lookup :
    (count_events is_update evs <= count_events is_lookup evs)%nat;
  er_message :
    status r <> 200 -> exists m, own_prop (body r) "message" = JStr m;
  er_ids : map qid st' = map qid st;
  er_others : forall q, In q st -> JStr (qid q) <> questionId -> In q st';
  er_unchanged : status r <> 200 -> st' = st;
  er_stored :
    status r = 200 ->
    exists existing explanation earlier,
      find_question questionId st = Some existing /\
      rev evs
      = EvFindByIdAndUpdate questionId
          (prior_answer existing ++ SEPARATOR ++ explanation)
          :: EvFindById questionId :: earlier /\
      find_question questionId st'
      = Some (with_answer existing
                (prior_answer existing ++ SEPARATOR ++ explanation)) /\
      body r
      = JObj [("question",
               doc_value
                 (Some (with_answer existing
                          (prior_answer existing ++ SEPARATOR ++ explanation))))]
}.

Definition INVALID_JSON_NO_ERROR (text : string) : response :=
  {| status := 500;
     body := JObj [("message", JStr "Gemini returned invalid JSON");
                   ("raw", JStr text);
                   ("error", JNull)] |}.

Definition QUESTIONS (v : value) : response :=
  {| status := 200; body := JObj [("questions", v)] |}.

Definition UPDATED (q : Question) : response :=
  {| status := 200; body := JObj [("question", doc_value (Some q))] |}.

(** The text of a fenced array of one question. *)
Definition FENCED_QUESTIONS : string :=
  "```json" ++ LF ++ "[{" ++ DQ ++ "question" ++ DQ ++ ":" ++ DQ ++ "Q1" ++ DQ
    ++ "}]" ++ LF ++ "```".


(** The text of an object whose [explanation] is the empty string. *)
Definition EMPTY_EXPLANATION_JSON : string :=
  "{" ++ DQ ++ "explanation" ++ DQ ++ ":" ++ DQ ++ DQ ++ "}".

(** The three steps of the fallback, said without the functions above.
    [a] is [text] without its opening: the seven characters [```json] at
    the very start and all the white space after them, or all of [text]
    when it does not start with [```json]. *)
Definition removes_opening (text a : string) : Prop :=
  (exists ws, all_space ws = true /\ starts_with_space a = false /\
              text = "```json" ++ ws ++ a) \/
  ((forall rest, text <> "```json" ++ rest) /\ a = text).

(** [b] is [a] without its last three characters when these are [```],
    and all of [a] otherwise. *)
Definition removes_closing (a b : string) : Prop :=
  a = b ++ "```" \/ (~ ends_with_fence a /\ b = a).

(** [c] is [b] without the white space around it. *)
Definition trims (b c : string) : Prop :=
  exists ws1 ws2,
    all_space ws1 = true /\ all_space ws2 = true /\
    b = ws1 ++ c ++ ws2 /\
    starts_with_space c = false /\ ends_with_space c = false.

(** A request whose [topicsToFocus] is an empty array. *)
Definition empty_topics_body : value :=
  JObj [("role", JStr "Backend Developer");
        ("experience", JStr "2");
        ("topicsToFocus", JArr []);
        ("numberOfQuestions", JNum 5)].

(** ** Tactics *)

(** Splits on whatever the handler branches on next. *)
Ltac branch :=
  match goal with
  | |- context [match ?x with _ => _ end] =>
      lazymatch x with
      | context [match _ with _ => _ end] => fail
      | _ => destruct x eqn:?
      end
  | |- context [if ?x then _ else _] =>
      lazymatch x with
      | context [if _ then _ else _] => fail
      | _ => destruct x eqn:?
      end
  end.

Ltac tidy := cbn [fst snd store log status body json error negb orb].

(** Runs the monad, leaving [tryParseJSON] and [appendExplanation] folded. *)
Ltac run_steps :=
  cbv [try_catch bind lift ret respond emit console_error
       generateContent_call JSON_parse_call];
  tidy.

Ltac run_handler :=
  cbv [tryParseJSON clean_call appendExplanation findById findByIdAndUpdate
       try_catch bind lift ret respond emit console_error
       generateContent_call JSON_parse_call];
  tidy.

(** Brings a goal [exists r w' evs, run = (Returned r, w') /\ store .. /\
    log w' = log w ++ evs /\ ..] to its last part, on one path of a handler. *)
Ltac name_run :=
  do 3 eexists;
  (split; [reflexivity |]); tidy;
  (split; [first [reflexivity | eassumption | idtac] |]);
  (split; [first [ rewrite <- ?app_assoc; reflexivity
                 | symmetry; apply app_nil_r ] |]).

(** ** Properties of the response extractor *)

Lemma truthy_not_nullish (v : value) : truthy v = true -> nullish v = false.
Proof. destruct v; simpl; congruence. Qed.

Lemma get_prop_defined (v : value) (k : string) :
  nullish v = false -> get_prop v k = Returned (own_prop v k).
Proof. destruct v; simpl; congruence. Qed.

Lemma opt_get_defined (v : value) (k : string) :
  nullish v = false -> opt_get v k = own_prop v k.
Proof. unfold opt_get; intros ->; reflexivity. Qed.

Lemma opt_get_truthy (v : value) (k : string) :
  truthy (opt_get v k) = true -> nullish v = false.
Proof. unfold opt_get; destruct (nullish v); simpl; congruence. Qed.

(** A primitive that is falsy has no property [candidates] to read on. *)
Lemma falsy_has_no_candidates (v : value) :
  truthy v = false -> nullish (own_prop v "candidates") = true.
Proof.
  destruct v as [| | b | f | s | l | fs]; simpl; try reflexivity; discriminate.
Qed.

Lemma getGeminiText_at_path (response t : value) :
  text_at_path response t ->
  getGeminiText response = Returned (if truthy t then t else JNull).
Proof.
  intros (c & c0 & ct & p & p0 & [Hr Hc] & [Hnc Hc0] & [Hn0 Hct] & [Hnt Hp]
            & [Hnp Hp0] & [Hn1 Ht]).
  assert (Htr : truthy response = true).
  { destruct (truthy response) eqn:Hf; [reflexivity |].
    apply falsy_has_no_candidates in Hf. congruence. }
  unfold getGeminiText. rewrite Htr. cbn [obind].
  rewrite (get_prop_defined _ _ Hr). cbn [obind]. rewrite Hc.
  rewrite (opt_get_defined _ _ Hnc), Hc0, (opt_get_defined _ _ Hn0), Hct,
    (opt_get_defined _ _ Hnt), Hp, (opt_get_defined _ _ Hnp), Hp0,
    (opt_get_defined _ _ Hn1), Ht.
  destruct (truthy t); [| reflexivity].
  rewrite (get_prop_defined _ _ Hnc), Hc0. cbn [obind].
  rewrite (get_prop_defined _ _ Hn0), Hct. cbn [obind].
  rewrite (get_prop_defined _ _ Hnt), Hp. cbn [obind].
  rewrite (get_prop_defined _ _ Hnp), Hp0. cbn [obind].
  rewrite (get_prop_defined _ _ Hn1), Ht. reflexivity.
Qed.

Lemma getGeminiText_returns (response : value) :
  exists r, getGeminiText response = Returned r /\
            (r = JNull \/ (text_at_path response r /\ truthy r = true)).
Proof.
  unfold getGeminiText.
  destruct (truthy response) eqn:Htr; cbn [obind].
  2:{ rewrite Htr. exists JNull. split; [reflexivity | now left]. }
  pose proof (truthy_not_nullish _ Htr) as Hr.
  rewrite (get_prop_defined _ _ Hr). cbn [obind].
  set (c := own_prop response "candidates").
  destruct (truthy (opt_get (opt_get (opt_get (opt_get (opt_get c "0")
              "content") "parts") "0") "text")) eqn:Hcond.
  2:{ exists JNull. split; [reflexivity | now left]. }
  pose proof (opt_get_truthy _ _ Hcond) as H5.
  pose proof H5 as H4. unfold opt_get at 1 in H4.
  destruct (nullish (opt_get (opt_get (opt_get c "0") "content") "parts"))
    eqn:N4; [discriminate |].
  pose proof N4 as H3. unfold opt_get at 1 in H3.
  destruct (nullish (opt_get (opt_get c "0") "content")) eqn:N3;
    [discriminate |].
  pose proof N3 as H2. unfold opt_get at 1 in H2.
  destruct (nullish (opt_get c "0")) eqn:N2; [discriminate |].
  pose proof N2 as H1. unfold opt_get at 1 in H1.
  destruct (nullish c) eqn:N1; [discriminate |].
  rewrite (opt_get_defined _ _ N1) in *.
  rewrite (opt_get_defined _ _ N2) in *.
  rewrite (opt_get_defined _ _ N3) in *.
  rewrite (opt_get_defined _ _ N4) in *.
  rewrite (opt_get_defined _ _ H5) in *.
  rewrite (get_prop_defined _ _ N1). cbn [obind].
  rewrite (get_prop_defined _ _ N2). cbn [obind].
  rewrite (get_prop_defined _ _ N3). cbn [obind].
  rewrite (get_prop_defined _ _ N4). cbn [obind].
  rewrite (get_prop_defined _ _ H5).
  eexists. split; [reflexivity |]. right. split; [| exact Hcond].
  exists c, (own_prop c "0"), (own_prop (own_prop c "0") "content"),
    (own_prop (own_prop (own_prop c "0") "content") "parts"),
    (own_prop (own_prop (own_prop (own_prop c "0") "content") "parts") "0").
  unfold has_prop. repeat split; assumption || reflexivity.
Qed.

(** C6.  On every provider response [getGeminiText] returns and does not
    throw.  What it returns is [null], unless a text sits at
    first candidate -> content -> first part -> text and is truthy, in which
    case it returns that text.  A response that is [null] or [undefined],
    has no [candidates], has an empty [candidates] array, or misses a field
    further down the path gives [null]. *)
Theorem getGeminiText_safe (response : value) :
  (exists r, getGeminiText response = Returned r /\
             (r = JNull \/ (text_at_path response r /\ truthy r = true))) /\
  (forall t, text_at_path response t ->
             getGeminiText response = Returned (if truthy t then t else JNull)) /\
  ((forall t, ~ text_at_path response t) ->
   getGeminiText response = Returned JNull) /\
  getGeminiText JNull = Returned JNull /\
  getGeminiText JUndefined = Returned JNull /\
  (forall fields, assoc "candidates" fields = JUndefined ->
                  getGeminiText (JObj fields) = Returned JNull) /\
  (forall fields, assoc "candidates" fields = JArr [] ->
                  getGeminiText (JObj fields) = Returned JNull).
Proof.
  split; [apply getGeminiText_returns |].
  split; [apply getGeminiText_at_path |].
  split.
  { intros Hno. destruct (getGeminiText_returns response) as (r & Hr & [-> | [Hp _]]).
    - exact Hr.
    - destruct (Hno r Hp). }
  split; [reflexivity |]. split; [reflexivity |].
  split; intros fields Hc; unfold getGeminiText; cbn; rewrite Hc; reflexivity.
Qed.

Lemma getGeminiText_safe_witness :
  text_at_path (response_with_text "hi") (JStr "hi") /\
  getGeminiText (response_with_text "hi") = Returned (JStr "hi").
Proof.
  assert (H : text_at_path (response_with_text "hi") (JStr "hi")).
  { unfold text_at_path, has_prop. do 5 eexists. cbn. repeat split. }
  split; [exact H |].
  exact (proj1 (proj2 (getGeminiText_safe (response_with_text "hi"))) _ H).
Defined.

(** ** Properties of the request validation *)

Lemma absent_or_empty_falsy (v : value) : absent_or_empty v -> truthy v = false.
Proof. intros [-> | [-> | ->]]; reflexivity. Qed.

Lemma destructure_defined (v : value) (what k : string) :
  nullish v = false -> destructure v what k = Returned (own_prop v k).
Proof. destruct v; simpl; congruence. Qed.

Lemma skipn_length_app {A} (l r : list A) : skipn (List.length l) (l ++ r) = r.
Proof. induction l; simpl; auto. Qed.

Lemma generateInterviewQuestions_falsy_field (E : Env) (req_body : value)
  (w : World) :
  nullish req_body = false ->
  truthy (own_prop req_body "role")
    && truthy (own_prop req_body "experience")
    && truthy (own_prop req_body "topicsToFocus")
    && truthy (own_prop req_body "numberOfQuestions") = false ->
  generateInterviewQuestions E req_body w = (Returned MISSING_FIELDS, w).
Proof.
  intros Hb Hf. unfold generateInterviewQuestions, try_catch, bind, lift.
  rewrite !(destructure_defined _ _ _ Hb).
  destruct (truthy (own_prop req_body "role")),
    (truthy (own_prop req_body "experience")),
    (truthy (own_prop req_body "topicsToFocus")),
    (truthy (own_prop req_body "numberOfQuestions"));
    try discriminate; reflexivity.
Qed.





(** ** Properties of the fence stripping *)

Lemma length_append (a b : string) :
  String.length (a ++ b) = (String.length a + String.length b)%nat.
Proof. induction a; simpl; auto. Qed.

Lemma strip_prefix_app (p r : string) : strip_prefix p (p ++ r) = Some r.
Proof.
  induction p as [| c p IH]; simpl; [reflexivity |].
  rewrite Ascii.eqb_refl. exact IH.
Qed.

Lemma strip_prefix_some (p s r : string) : strip_prefix p s = Some r -> s = p ++ r.
Proof.
  revert s. induction p as [| c p IH]; intros s H; simpl in *.
  - congruence.
  - destruct s as [| d s]; [discriminate |].
    destruct (Ascii.eqb c d) eqn:Hcd; [| discriminate].
    apply Ascii.eqb_eq in Hcd. subst d. f_equal. apply IH, H.
Qed.

Lemma trim_start_all_space (ws s : string) :
  all_space ws = true -> trim_start (ws ++ s) = trim_start s.
Proof.
  induction ws as [| c ws IH]; simpl; [reflexivity |].
  intros H. apply andb_prop in H as [Hc Hw]. rewrite Hc. auto.
Qed.

Lemma trim_start_fence (b : string) :
  trim_start (b ++ "```") = trim_start b ++ "```".
Proof.
  induction b as [| c b IH]; [reflexivity |].
  simpl. destruct (is_space c); [exact IH | reflexivity].
Qed.

Lemma trim_start_idempotent (s : string) :
  trim_start (trim_start s) = trim_start s.
Proof.
  induction s as [| c s IH]; [reflexivity |].
  simpl. destruct (is_space c) eqn:Hc; [exact IH |].
  simpl. rewrite Hc. reflexivity.
Qed.

Lemma strip_close_fence (p : string) : strip_close (p ++ "```") = p.
Proof.
  induction p as [| c p IH]; [reflexivity |].
  change (String c p ++ "```") with (String c (p ++ "```")).
  cbn [strip_close].
  destruct (String.eqb (String c (p ++ "```")) "```") eqn:Heq.
  - apply String.eqb_eq in Heq. apply (f_equal String.length) in Heq.
    simpl in Heq. rewrite length_append in Heq. simpl in Heq. lia.
  - rewrite IH. reflexivity.
Qed.

Lemma cleaned_fenced (ws inner : string) :
  all_space ws = true ->
  cleaned ("```json" ++ ws ++ inner ++ "```") = trim inner.
Proof.
  intros Hws. unfold cleaned, strip_open.
  rewrite strip_prefix_app, (trim_start_all_space _ _ Hws), trim_start_fence,
    strip_close_fence.
  unfold trim. rewrite trim_start_idempotent. reflexivity.
Qed.

(** ** Properties of the JSON recovery *)

Lemma tryParseJSON_first (E : Env) (text : string) (w : World) (v : value) :
  JSON_parse E text = Returned v ->
  tryParseJSON E (JStr text) w =
    (Returned {| json := v; error := JNull |},
     {| store := store w; log := log w ++ [EvJSONParse text] |}).
Proof. intros H. run_handler. cbn [ToString]. rewrite H. reflexivity. Qed.

Lemma tryParseJSON_second (E : Env) (text : string) (w : World) (e1 : string) :
  JSON_parse E text = Thrown e1 ->
  tryParseJSON E (JStr text) w =
    (Returned match JSON_parse E (cleaned text) with
              | Returned v => {| json := v; error := JNull |}
              | Thrown e2 => {| json := JNull; error := JStr e2 |}
              end,
     {| store := store w;
        log := log w ++ [EvJSONParse text; EvJSONParse (cleaned text)] |}).
Proof.
  intros H. run_handler. cbn [ToString]. rewrite H.
  destruct (JSON_parse E (cleaned text)); cbn [store log];
    rewrite <- app_assoc; reflexivity.
Qed.

(** C5.  A text that is valid JSON is parsed by the first attempt: the
    parsed value comes back with [error: null], and JSON.parse was called
    once, on the text itself; the fence stripping was not applied. *)
Theorem tryParseJSON_valid (E : Env) (text : string) (w : World) (v : value) :
  JSON_parse E text = Returned v ->
  fst (tryParseJSON E (JStr text) w) = Returned {| json := v; error := JNull |} /\
  new_events w (snd (tryParseJSON E (JStr text) w)) = [EvJSONParse text] /\
  store (snd (tryParseJSON E (JStr text) w)) = store w.
Proof.
  intros H. rewrite (tryParseJSON_first _ _ _ _ H). unfold new_events.
  cbn [fst snd store log]. rewrite skipn_length_app. auto.
Qed.

Lemma tryParseJSON_valid_witness :
  fst (tryParseJSON (reference_env (answering "")) (JStr OBJECT_EXAMPLE)
         empty_world)
  = Returned {| json := JObj [("a", JNum 1)]; error := JNull |}.
Proof.
  refine (proj1 (tryParseJSON_valid (reference_env (answering ""))
                   OBJECT_EXAMPLE empty_world (JObj [("a", JNum 1)]) _)).
  reflexivity.
Defined.

(** C3 as stated fails: with no language tag the leading fence marker is not
    removed.  The strict parse of the text fails, the words of the
    specification would have [{"a":1}] parsed next, the code parses the text
    with its opening fence still there, and the result is a failure. *)
Lemma bare_fence_not_removed :
  JSON_parse (reference_env (answering "")) BARE_FENCE_EXAMPLE
  = Thrown Reference.SYNTAX_ERROR /\
  spec_cleaned BARE_FENCE_EXAMPLE = OBJECT_EXAMPLE /\
  cleaned BARE_FENCE_EXAMPLE = "```" ++ LF ++ OBJECT_EXAMPLE /\
  cleaned BARE_FENCE_EXAMPLE <> spec_cleaned BARE_FENCE_EXAMPLE /\
  tryParseJSON (reference_env (answering "")) (JStr BARE_FENCE_EXAMPLE)
    empty_world
  = (Returned {| json := JNull; error := JStr Reference.SYNTAX_ERROR |},
     {| store := [];
        log := [EvJSONParse BARE_FENCE_EXAMPLE;
                EvJSONParse ("```" ++ LF ++ OBJECT_EXAMPLE)] |}).
Proof.
  repeat split; try reflexivity. cbv. discriminate.
Qed.

Lemma truthy_nonempty (s : string) : s <> "" -> truthy (JStr s) = true.
Proof.
  intros H. simpl. destruct (String.eqb s "") eqn:Heq; [| reflexivity].
  apply String.eqb_eq in Heq. contradiction.
Qed.

(** C4.  When the strict parse and the parse of the cleaned text both fail,
    [tryParseJSON] returns [json: null] with the message of the second
    failure as [error]; the text itself is untouched in the caller, and the
    generate-questions handler answers 500 with the raw text and that
    message. *)
Theorem tryParseJSON_both_fail (E : Env) (text : string) (w : World)
  (e1 e2 : string) :
  JSON_parse E text = Thrown e1 ->
  JSON_parse E (cleaned text) = Thrown e2 ->
  tryParseJSON E (JStr text) w =
    (Returned {| json := JNull; error := JStr e2 |},
     {| store := store w;
        log := log w ++ [EvJSONParse text; EvJSONParse (cleaned text)] |}) /\
  (forall req_body w' response,
     nullish req_body = false ->
     truthy (own_prop req_body "role") = true ->
     truthy (own_prop req_body "experience") = true ->
     truthy (own_prop req_body "topicsToFocus") = true ->
     truthy (own_prop req_body "numberOfQuestions") = true ->
     generateContent E
       (provider_request
          (questionAnswerPrompt E (own_prop req_body "role")
             (own_prop req_body "experience")
             (own_prop req_body "topicsToFocus")
             (own_prop req_body "numberOfQuestions"))) = Returned response ->
     getGeminiText response = Returned (JStr text) ->
     text <> "" ->
     fst (generateInterviewQuestions E req_body w')
     = Returned (INVALID_JSON text e2)).
Proof.
  intros H1 H2. split.
  - rewrite (tryParseJSON_second _ _ _ _ H1), H2. reflexivity.
  - intros req_body w' response Hb Hr He Ht Hn Hgen Hget Hne.
    unfold generateInterviewQuestions. run_steps.
    rewrite !(destructure_defined _ _ _ Hb), Hr, He, Ht, Hn. tidy.
    rewrite Hgen. tidy. rewrite Hget. tidy.
    rewrite (truthy_nonempty _ Hne). tidy.
    rewrite (tryParseJSON_second _ _ _ _ H1), H2. reflexivity.
Qed.

Lemma tryParseJSON_both_fail_witness :
  fst (generateInterviewQuestions (reference_env (answering "not json at all"))
         generation_body empty_world)
  = Returned (INVALID_JSON "not json at all" Reference.SYNTAX_ERROR).
Proof.
  refine (proj2 (tryParseJSON_both_fail
                   (reference_env (answering "not json at all"))
                   "not json at all" empty_world
                   Reference.SYNTAX_ERROR Reference.SYNTAX_ERROR _ _)
            generation_body empty_world
            (response_with_text "not json at all") _ _ _ _ _ _ _ _);
    try reflexivity.
  discriminate.
Defined.

(** ** Properties of the explanation handler *)

Lemma prefix_append (a b : string) : String.prefix a (a ++ b) = true.
Proof.
  induction a as [| c a IH]; simpl; [destruct b; reflexivity |].
  destruct (ascii_dec c c); [exact IH | contradiction].
Qed.

Lemma find_question_is_string (id : value) (st : list Question) (q : Question) :
  find_question id st = Some q -> id = JStr (qid q).
Proof.
  destruct id; simpl; try discriminate.
  intros H. apply find_some in H as [_ H]. apply String.eqb_eq in H. congruence.
Qed.

Lemma find_after_update (id a : string) (st : list Question) (q : Question) :
  find_question (JStr id) st = Some q ->
  find_question (JStr id) (update_answer id a st)
  = Some {| qid := qid q; answer := Some a; others := others q |}.
Proof.
  simpl. induction st as [| x st IH]; simpl; [discriminate |].
  destruct (String.eqb (qid x) id) eqn:Hx; simpl.
  - intros [= <-]. rewrite Hx. reflexivity.
  - rewrite Hx. exact IH.
Qed.

(** C2.  For a stored question and an explanation string, the lookup and
    update of lines 113-127 store as the new answer the prior answer (the
    empty string when there is none), then a blank line, [Explanation:], a
    line break, then the explanation.  So prior [A] and explanation [B] give
    [A\n\nExplanation:\nB], no prior answer gives [\n\nExplanation:\nB], and
    the prior answer is a prefix of the new one. *)
Theorem appendExplanation_appends (E : Env) (w : World) (questionId : value)
  (existing : Question) (explanation : string) :
  find_question questionId (store w) = Some existing ->
  findById_fault E questionId = None ->
  findByIdAndUpdate_fault E questionId
    (newAnswer (Number_toString E) existing (JStr explanation)) = None ->
  let prior := match answer existing with Some a => a | None => "" end in
  let stored := prior ++ LF ++ LF ++ "Explanation:" ++ LF ++ explanation in
  let updated :=
    {| qid := qid existing; answer := Some stored; others := others existing |} in
  let after := snd (appendExplanation E questionId (JStr explanation) w) in
  fst (appendExplanation E questionId (JStr explanation) w)
  = Returned {| status := 200;
                body := JObj [("question", doc_value (Some updated))] |} /\
  store after = update_answer (qid existing) stored (store w) /\
  find_question questionId (store after) = Some updated /\
  new_events w after = [EvFindById questionId;
                        EvFindByIdAndUpdate questionId stored] /\
  String.prefix prior stored = true /\
  (answer existing = Some "A" -> explanation = "B" ->
   stored = "A" ++ LF ++ LF ++ "Explanation:" ++ LF ++ "B") /\
  (answer existing = None \/ answer existing = Some "" ->
   stored = LF ++ LF ++ "Explanation:" ++ LF ++ explanation).
Proof.
  intros Hfind Hf1 Hf2 prior stored updated after.
  pose proof (find_question_is_string _ _ _ Hfind) as Hid.
  assert (Hnew : newAnswer (Number_toString E) existing (JStr explanation) = stored).
  { unfold newAnswer, stored, prior, SEPARATOR, LF. cbn [ToString].
    destruct (answer existing); reflexivity. }
  rewrite Hnew in Hf2.
  assert (Hrun : appendExplanation E questionId (JStr explanation) w
                 = (Returned {| status := 200;
                                body := JObj [("question", doc_value (Some updated))] |},
                    {| store := update_answer (qid existing) stored (store w);
                       log := log w ++ [EvFindById questionId;
                                        EvFindByIdAndUpdate questionId stored] |})).
  { run_handler. rewrite Hf1. tidy. rewrite Hfind. rewrite Hnew, Hf2.
    subst questionId. tidy.
    rewrite (find_after_update _ stored _ _ Hfind).
    rewrite <- app_assoc. reflexivity. }
  subst after. rewrite Hrun. tidy. unfold new_events. tidy.
  rewrite skipn_length_app. subst questionId.
  repeat split.
  - apply find_after_update, Hfind.
  - apply prefix_append.
  - intros Ha ->. unfold stored, prior. rewrite Ha. reflexivity.
  - intros [Ha | Ha]; unfold stored, prior; rewrite Ha; reflexivity.
Qed.

Lemma appendExplanation_appends_witness :
  fst (appendExplanation (reference_env (answering "")) (JStr "q1") (JStr "B")
         sample_world)
  = Returned
      {| status := 200;
         body := JObj [("question",
                        JObj [("_id", JStr "q1");
                              ("answer",
                               JStr ("A" ++ LF ++ LF ++ "Explanation:" ++ LF ++ "B"));
                              ("question", JStr "What is a closure?")])] |}.
Proof.
  refine (proj1 (appendExplanation_appends (reference_env (answering ""))
                   sample_world (JStr "q1") sample_question "B" _ _ _));
    reflexivity.
Defined.

Lemma generateConceptExplanation_no_update (E : Env) (req_body : value)
  (w : World) :
  find_question (own_prop req_body "questionId") (store w) = None ->
  store (snd (generateConceptExplanation E req_body w)) = store w /\
  existsb is_update (new_events w (snd (generateConceptExplanation E req_body w)))
  = false.
Proof.
  intros Hfind. unfold generateConceptExplanation, new_events. run_handler.
  destruct (nullish req_body) eqn:Hb.
  - destruct req_body; try discriminate; cbn [destructure]; tidy;
      (split; [reflexivity |]); rewrite skipn_length_app; reflexivity.
  - rewrite !(destructure_defined _ _ _ Hb).
    repeat (branch; tidy; rewrite ?Hfind in *); try discriminate;
      (split; [reflexivity |]); tidy;
      rewrite <- ?app_assoc;
      first [ rewrite skipn_length_app
            | rewrite <- (app_nil_r (log w)) at 2; rewrite skipn_length_app ];
      reflexivity.
Qed.

Lemma generateConceptExplanation_not_found (E : Env) (req_body : value)
  (w : World) (response : value) (text : string) :
  nullish req_body = false ->
  truthy (own_prop req_body "questionId") = true ->
  truthy (own_prop req_body "question") = true ->
  find_question (own_prop req_body "questionId") (store w) = None ->
  generateContent E
    (provider_request (conceptExplainPrompt E (own_prop req_body "question")))
  = Returned response ->
  getGeminiText response = Returned (JStr text) ->
  text <> "" ->
  findById_fault E (own_prop req_body "questionId") = None ->
  exists parses,
    generateConceptExplanation E req_body w
    = (Returned NOT_FOUND,
       {| store := store w;
          log := log w
                   ++ EvGenerateContent
                        (provider_request
                           (conceptExplainPrompt E (own_prop req_body "question")))
                   :: parses ++ [EvFindById (own_prop req_body "questionId")] |}) /\
    parses <> [] /\ forallb is_parse parses = true.
Proof.
  intros Hb Hq Hx Hfind Hgen Hget Hne Hfault.
  unfold generateConceptExplanation. run_steps.
  rewrite !(destructure_defined _ _ _ Hb), Hq, Hx. tidy.
  rewrite Hgen. tidy. rewrite Hget. tidy.
  rewrite (truthy_nonempty _ Hne). tidy.
  destruct (JSON_parse E text) as [v | e1] eqn:Hp.
  - rewrite (tryParseJSON_first _ _ _ _ Hp). tidy.
    exists [EvJSONParse text].
    destruct (deriveExplanation (Number_toString E) v (JStr text)) eqn:Hd.
    + run_handler. rewrite Hfault. tidy. rewrite Hfind.
      rewrite <- !app_assoc. repeat split. discriminate.
    + exfalso. unfold deriveExplanation in Hd.
      destruct (truthy (opt_get v "explanation")) eqn:Ht; [| discriminate].
      apply opt_get_truthy in Ht. rewrite (get_prop_defined _ _ Ht) in Hd.
      discriminate.
  - rewrite (tryParseJSON_second _ _ _ _ Hp). tidy.
    exists [EvJSONParse text; EvJSONParse (cleaned text)].
    destruct (deriveExplanation (Number_toString E) _ (JStr text)) eqn:Hd.
    + run_handler. rewrite Hfault. tidy. rewrite Hfind.
      rewrite <- !app_assoc. repeat split. discriminate.
    + exfalso. unfold deriveExplanation in Hd.
      destruct (truthy (opt_get _ "explanation")) eqn:Ht; [| discriminate].
      apply opt_get_truthy in Ht. rewrite (get_prop_defined _ _ Ht) in Hd.
      discriminate.
Qed.

(** C9, as the code has it.  For a request with both fields present whose
    [questionId] matches no stored question, the update is never invoked and
    the stored questions stay as they are, whatever the provider does; and
    when the provider call returns a non-empty text and the lookup itself
    does not fail, the answer is 404 "Question not found". *)
Theorem generateConceptExplanation_unknown_question (E : Env)
  (req_body : value) (w : World) :
  nullish req_body = false ->
  truthy (own_prop req_body "questionId") = true ->
  truthy (own_prop req_body "question") = true ->
  find_question (own_prop req_body "questionId") (store w) = None ->
  store (snd (generateConceptExplanation E req_body w)) = store w /\
  existsb is_update (new_events w (snd (generateConceptExplanation E req_body w)))
  = false /\
  (forall response text,
     generateContent E
       (provider_request (conceptExplainPrompt E (own_prop req_body "question")))
     = Returned response ->
     getGeminiText response = Returned (JStr text) ->
     text <> "" ->
     findById_fault E (own_prop req_body "questionId") = None ->
     fst (generateConceptExplanation E req_body w) = Returned NOT_FOUND).
Proof.
  intros Hb Hq Hx Hfind.
  destruct (generateConceptExplanation_no_update E req_body w Hfind) as [H1 H2].
  repeat split; [exact H1 | exact H2 |].
  intros response text Hgen Hget Hne Hfault.
  destruct (generateConceptExplanation_not_found E req_body w response text
              Hb Hq Hx Hfind Hgen Hget Hne Hfault) as (parses & -> & _).
  reflexivity.
Qed.

Lemma generateConceptExplanation_unknown_question_witness :
  fst (generateConceptExplanation
         (reference_env (answering "A closure captures its scope."))
         explanation_body empty_world)
  = Returned NOT_FOUND.
Proof.
  refine (proj2 (proj2 (generateConceptExplanation_unknown_question
                          (reference_env (answering "A closure captures its scope."))
                          explanation_body empty_world _ _ _ _))
            (response_with_text "A closure captures its scope.")
            "A closure captures its scope." _ _ _ _);
    try reflexivity.
  discriminate.
Defined.

(** C9 as stated fails: both fields are present and no stored question
    matches, yet the answer is 500, not 404, when the provider call, which
    comes first, is rejected, and also when it returns no candidates. *)
Lemma unknown_question_without_provider :
  nullish explanation_body = false /\
  present (own_prop explanation_body "questionId") /\
  present (own_prop explanation_body "question") /\
  find_question (own_prop explanation_body "questionId") (store empty_world)
  = None /\
  fst (generateConceptExplanation (reference_env (failing "fetch failed"))
         explanation_body empty_world)
  = Returned (EXPLANATION_FAILED "fetch failed") /\
  status (EXPLANATION_FAILED "fetch failed") <> 404 /\
  fst (generateConceptExplanation
         (reference_env (fun _ => Returned (JObj [("candidates", JArr [])])))
         explanation_body empty_world)
  = Returned NO_RESPONSE /\
  status NO_RESPONSE <> 404.
Proof.
  unfold present, absent_or_empty.
  repeat split; try reflexivity; cbn;
    try (intros [H | [H | H]]; discriminate); discriminate.
Qed.

Lemma generateConceptExplanation_paths (E : Env) (req_body : value) (w : World) :
  nullish req_body = false ->
  truthy (own_prop req_body "questionId") = true ->
  truthy (own_prop req_body "question") = true ->
  exists r w' rest,
    generateConceptExplanation E req_body w = (Returned r, w') /\
    log w' = (log w
                ++ EvGenerateContent
                     (provider_request
                        (conceptExplainPrompt E (own_prop req_body "question")))
                :: rest)%list /\
    (status r = 404 ->
     exists parses,
       parses <> [] /\ forallb is_parse parses = true /\
       rest = (parses ++ [EvFindById (own_prop req_body "questionId")])%list).
Proof.
  intros Hb Hq Hx. unfold generateConceptExplanation. run_handler.
  rewrite !(destructure_defined _ _ _ Hb), Hq, Hx. tidy.
  repeat (branch; tidy);
    eexists; eexists; eexists;
    (split; [reflexivity |]); tidy;
    (split; [rewrite <- ?app_assoc; cbn [app]; reflexivity |]);
    intros Hs; cbn in Hs; try discriminate;
    match goal with
    | |- exists parses, _ /\ _ /\ ?p1 :: [_] = _ => exists [p1]
    | |- exists parses, _ /\ _ /\ ?p1 :: ?p2 :: [_] = _ => exists [p1; p2]
    end; repeat split; discriminate.
Qed.

(** C10.  In a request that passes the field validation the provider call is
    the first call the handler makes, before the lookup of the question.  A
    rejected provider call or a response with no text gives 500 with no
    lookup made; and whenever the answer is 404, the provider call and then
    the JSON recovery (one or two parses) have run before the lookup, which
    is the last call. *)
Theorem generateConceptExplanation_provider_first (E : Env) (req_body : value)
  (w : World) :
  nullish req_body = false ->
  truthy (own_prop req_body "questionId") = true ->
  truthy (own_prop req_body "question") = true ->
  let request :=
    provider_request (conceptExplainPrompt E (own_prop req_body "question")) in
  (exists rest,
     new_events w (snd (generateConceptExplanation E req_body w))
     = EvGenerateContent request :: rest) /\
  (forall message,
     generateContent E request = Thrown message ->
     generateConceptExplanation E req_body w
     = (Returned (EXPLANATION_FAILED message),
        {| store := store w;
           log := log w ++ [EvGenerateContent request; EvConsoleError message] |})) /\
  (forall response t,
     generateContent E request = Returned response ->
     getGeminiText response = Returned t ->
     truthy t = false ->
     generateConceptExplanation E req_body w
     = (Returned NO_RESPONSE,
        {| store := store w; log := log w ++ [EvGenerateContent request] |})) /\
  (forall r,
     fst (generateConceptExplanation E req_body w) = Returned r ->
     status r = 404 ->
     exists parses,
       parses <> [] /\ forallb is_parse parses = true /\
       new_events w (snd (generateConceptExplanation E req_body w))
       = EvGenerateContent request
           :: parses ++ [EvFindById (own_prop req_body "questionId")]).
Proof.
  intros Hb Hq Hx request.
  destruct (generateConceptExplanation_paths E req_body w Hb Hq Hx)
    as (r0 & w' & rest & Hrun & Hlog & H404).
  fold request in Hlog.
  repeat split.
  - exists rest. rewrite Hrun. unfold new_events. tidy.
    rewrite Hlog. apply skipn_length_app.
  - intros message Hgen. unfold generateConceptExplanation. run_steps.
    rewrite !(destructure_defined _ _ _ Hb), Hq, Hx. tidy.
    fold request. rewrite Hgen. tidy. rewrite <- app_assoc. reflexivity.
  - intros response t Hgen Hget Ht. unfold generateConceptExplanation. run_steps.
    rewrite !(destructure_defined _ _ _ Hb), Hq, Hx. tidy.
    fold request. rewrite Hgen. tidy. rewrite Hget. tidy. rewrite Ht. reflexivity.
  - intros r Hr Hs. rewrite Hrun in Hr |- *. tidy. injection Hr as <-.
    destruct (H404 Hs) as (parses & Hne & Hall & ->).
    exists parses. repeat split; try assumption.
    unfold new_events. tidy. rewrite Hlog. apply skipn_length_app.
Qed.

Lemma generateConceptExplanation_provider_first_witness :
  generateConceptExplanation (reference_env (failing "fetch failed"))
    explanation_body sample_world
  = (Returned (EXPLANATION_FAILED "fetch failed"),
     {| store := [sample_question];
        log := [EvGenerateContent
                  (provider_request "Explain: What is a closure?");
                EvConsoleError "fetch failed"] |}).
Proof.
  refine (proj1 (proj2 (generateConceptExplanation_provider_first
                          (reference_env (failing "fetch failed"))
                          explanation_body sample_world _ _ _))
            "fetch failed" _); reflexivity.
Defined.

(** Every failure is caught at the handler: each handler returns a response
    on every request body, in every environment and world. *)
Lemma handlers_always_respond (E : Env) (req_body : value) (w : World) :
  (exists r w', generateInterviewQuestions E req_body w = (Returned r, w')) /\
  (exists r w', generateConceptExplanation E req_body w = (Returned r, w')).
Proof.
  split.
  - unfold generateInterviewQuestions. run_handler.
    repeat (branch; tidy); eexists; eexists; reflexivity.
  - unfold generateConceptExplanation. run_handler.
    repeat (branch; tidy); eexists; eexists; reflexivity.
Qed.

(** The order of lines 106-111 on what [tryParseJSON] hands over: a truthy
    [explanation] property first; otherwise the serialization of whatever
    [typeof] calls an object, which includes [null]; otherwise the text. *)
Lemma deriveExplanation_cases (toStr : float -> string) (parsed text : value) :
  (truthy (opt_get parsed "explanation") = true ->
   deriveExplanation toStr parsed text = Returned (own_prop parsed "explanation")) /\
  (truthy (opt_get parsed "explanation") = false ->
   typeof_is_object parsed = true ->
   deriveExplanation toStr parsed text = Returned (JSON_stringify toStr parsed)) /\
  (truthy (opt_get parsed "explanation") = false ->
   typeof_is_object parsed = false ->
   deriveExplanation toStr parsed text = Returned text).
Proof.
  unfold deriveExplanation. repeat split.
  - intros H. rewrite H. apply get_prop_defined, (opt_get_truthy _ _ H).
  - intros -> ->. reflexivity.
  - intros -> ->. reflexivity.
Qed.

Lemma explanation_when_parsing_fails (E : Env) (text : string) (w : World)
  (e1 e2 : string) :
  JSON_parse E text = Thrown e1 ->
  JSON_parse E (cleaned text) = Thrown e2 ->
  exists parsed,
    fst (tryParseJSON E (JStr text) w) = Returned parsed /\
    deriveExplanation (Number_toString E) (json parsed) (JStr text)
    = Returned (JStr "null").
Proof.
  intros H1 H2. rewrite (tryParseJSON_second _ _ _ _ H1), H2.
  eexists. split; reflexivity.
Qed.

(** C1, at a text that is not JSON.  The claim has the explanation equal the
    raw text when parsing fails.  The code hands [null] to the derivation,
    [typeof null] is ["object"], and the explanation is the string [null]:
    with the provider text [not json at all] and the stored answer [A], the
    handler answers 200 and stores [A\n\nExplanation:\nnull]. *)
Theorem explanation_of_unparsable_text :
  let E := reference_env (answering "not json at all") in
  (forall toStr text, deriveExplanation toStr JNull text = Returned (JStr "null")) /\
  fst (tryParseJSON E (JStr "not json at all") sample_world)
  = Returned {| json := JNull; error := JStr Reference.SYNTAX_ERROR |} /\
  JStr "null" <> JStr "not json at all" /\
  exists w',
    generateConceptExplanation E explanation_body sample_world
    = (Returned
         {| status := 200;
            body :=
              JObj [("question",
                     JObj [("_id", JStr "q1");
                           ("answer",
                            JStr ("A" ++ LF ++ LF ++ "Explanation:" ++ LF ++ "null"));
                           ("question", JStr "What is a closure?")])] |}, w') /\
    store w'
    = [{| qid := "q1";
          answer := Some ("A" ++ LF ++ LF ++ "Explanation:" ++ LF ++ "null");
          others := [("question", JStr "What is a closure?")] |}].
Proof.
  intros E. split; [reflexivity |]. split; [reflexivity |].
  split; [discriminate |].
  eexists. split; reflexivity.
Qed.

(** ** Further properties of the fence stripping *)

Lemma append_assoc (a b c : string) : (a ++ b) ++ c = a ++ b ++ c.
Proof. induction a as [| x a IH]; simpl; [reflexivity | now rewrite IH]. Qed.

Lemma append_nil_r (a : string) : a ++ "" = a.
Proof. induction a as [| x a IH]; simpl; [reflexivity | now rewrite IH]. Qed.

Lemma trim_start_suffix (s : string) : exists a, s = a ++ trim_start s.
Proof.
  induction s as [| c s [a IH]]; [exists ""; reflexivity |].
  simpl. destruct (is_space c).
  - exists (String c a). simpl. now rewrite <- IH.
  - exists "". reflexivity.
Qed.

Lemma trim_end_prefix (s : string) : exists b, s = trim_end s ++ b.
Proof.
  induction s as [| c s [b IH]]; [exists ""; reflexivity |].
  simpl. destruct (trim_end s) as [| d t] eqn:Ht.
  - destruct (is_space c).
    + exists (String c s). reflexivity.
    + exists s. reflexivity.
  - exists b. simpl. now rewrite IH at 1.
Qed.

Lemma strip_close_prefix (s : string) : exists b, s = strip_close s ++ b.
Proof.
  induction s as [| c s [b IH]]; [exists ""; reflexivity |].
  cbn [strip_close]. destruct (String.eqb (String c s) "```").
  - exists (String c s). reflexivity.
  - exists b. simpl. now rewrite IH at 1.
Qed.

Lemma strip_open_suffix (s : string) : exists a, s = a ++ strip_open s.
Proof.
  unfold strip_open. destruct (strip_prefix "```json" s) as [r |] eqn:Hp.
  - apply strip_prefix_some in Hp. destruct (trim_start_suffix r) as [a Ha].
    exists ("```json" ++ a). rewrite append_assoc, <- Ha. exact Hp.
  - exists "". reflexivity.
Qed.

Lemma trim_start_no_space (s : string) : starts_with_space (trim_start s) = false.
Proof.
  induction s as [| c s IH]; [reflexivity |].
  simpl. destruct (is_space c) eqn:Hc; [exact IH | simpl; exact Hc].
Qed.

Lemma trim_end_cons (c : ascii) (s : string) :
  is_space c = false -> trim_end (String c s) = String c (trim_end s).
Proof. intros Hc. simpl. destruct (trim_end s); rewrite ?Hc; reflexivity. Qed.

Lemma trim_end_no_space (s : string) : ends_with_space (trim_end s) = false.
Proof.
  induction s as [| c s IH]; [reflexivity |].
  simpl. destruct (trim_end s) as [| d t] eqn:Ht.
  - destruct (is_space c) eqn:Hc; [reflexivity | simpl; exact Hc].
  - exact IH.
Qed.

Lemma trim_end_keeps_start (s : string) :
  starts_with_space s = false -> starts_with_space (trim_end s) = false.
Proof.
  destruct s as [| c s]; [reflexivity |]. intros Hc.
  change (is_space c = false) in Hc.
  rewrite (trim_end_cons _ _ Hc). exact Hc.
Qed.

(** What the second attempt parses is a contiguous part of the text, the
    inside left as it was, with no white space at either end. *)
Theorem cleaned_is_inner_part (text : string) :
  (exists before after, text = before ++ cleaned text ++ after) /\
  starts_with_space (cleaned text) = false /\
  ends_with_space (cleaned text) = false.
Proof.
  unfold cleaned, trim. repeat split.
  - destruct (strip_open_suffix text) as [a Ha].
    destruct (strip_close_prefix (strip_open text)) as [b Hb].
    destruct (trim_start_suffix (strip_close (strip_open text))) as [a' Ha'].
    destruct (trim_end_prefix (trim_start (strip_close (strip_open text))))
      as [b' Hb'].
    exists (a ++ a'), (b' ++ b).
    rewrite Ha at 1. rewrite Hb at 1. rewrite Ha' at 1. rewrite Hb' at 1.
    rewrite !append_assoc. reflexivity.
  - apply trim_end_keeps_start, trim_start_no_space.
  - apply trim_end_no_space.
Qed.

Lemma space_is_not_backtick (c : ascii) :
  is_space c = true -> Ascii.eqb c "`" = false.
Proof.
  intros Hc. destruct (Ascii.eqb c "`") eqn:He; [| reflexivity].
  apply Ascii.eqb_eq in He. subst c. discriminate.
Qed.

Lemma strip_close_cons (c : ascii) (s : string) :
  Ascii.eqb c "`" = false -> strip_close (String c s) = String c (strip_close s).
Proof. intros Hc. cbn [strip_close String.eqb]. rewrite Hc. reflexivity. Qed.

Lemma strip_close_after_spaces (ws s : string) :
  all_space ws = true -> strip_close (ws ++ s) = ws ++ strip_close s.
Proof.
  induction ws as [| c ws IH]; [reflexivity |].
  cbn [all_space]. intros H. apply andb_prop in H as [Hc Hw].
  change (String c ws ++ s) with (String c (ws ++ s)).
  rewrite (strip_close_cons _ _ (space_is_not_backtick _ Hc)), (IH Hw).
  reflexivity.
Qed.

Lemma strip_close_unchanged (s : string) :
  ~ ends_with_fence s -> strip_close s = s.
Proof.
  induction s as [| c s IH]; [reflexivity |]. intros Hn.
  cbn [strip_close]. destruct (String.eqb (String c s) "```") eqn:He.
  - apply String.eqb_eq in He. destruct Hn. exists "". exact He.
  - rewrite IH; [reflexivity |]. intros [p Hp]. apply Hn.
    exists (String c p). simpl. now rewrite Hp.
Qed.

Lemma fence_end_is_not_space (p : string) : ends_with_space (p ++ "```") = false.
Proof.
  induction p as [| c p IH]; [reflexivity |].
  change (String c p ++ "```") with (String c (p ++ "```")).
  cbn [ends_with_space]. destruct (p ++ "```") eqn:Hp; [| exact IH].
  destruct p; discriminate.
Qed.

Lemma space_end_is_not_fence (s : string) :
  ends_with_space s = true -> ~ ends_with_fence s.
Proof. intros Hs [p ->]. rewrite fence_end_is_not_space in Hs. discriminate. Qed.

Lemma ends_with_space_spaces (ws : string) :
  all_space ws = true -> ws <> "" -> ends_with_space ws = true.
Proof.
  induction ws as [| c ws IH]; [congruence |].
  cbn [all_space ends_with_space]. intros H _.
  apply andb_prop in H as [Hc Hw].
  destruct ws as [| d ws]; [exact Hc |]. apply IH; [exact Hw | discriminate].
Qed.

Lemma ends_with_space_app (a ws : string) :
  all_space ws = true -> ws <> "" -> ends_with_space (a ++ ws) = true.
Proof.
  intros Hw Hne. induction a as [| c a IH].
  - apply ends_with_space_spaces; assumption.
  - change (String c a ++ ws) with (String c (a ++ ws)).
    cbn [ends_with_space]. destruct (a ++ ws) eqn:Ha; [| exact IH].
    destruct a; [simpl in Ha; contradiction | discriminate].
Qed.

Lemma trim_end_spaces (ws : string) : all_space ws = true -> trim_end ws = "".
Proof.
  induction ws as [| c ws IH]; [reflexivity |].
  cbn [all_space]. intros H. apply andb_prop in H as [Hc Hw].
  simpl. rewrite (IH Hw), Hc. reflexivity.
Qed.

Lemma trim_end_before_spaces (a ws : string) :
  all_space ws = true -> trim_end (a ++ ws) = trim_end a.
Proof.
  intros Hw. induction a as [| c a IH].
  - simpl. apply trim_end_spaces, Hw.
  - simpl. rewrite IH. reflexivity.
Qed.

Lemma trim_end_unchanged (s : string) : ends_with_space s = false -> trim_end s = s.
Proof.
  induction s as [| c s IH]; [reflexivity |].
  cbn [ends_with_space]. destruct s as [| d s].
  - intros Hc. simpl. rewrite Hc. reflexivity.
  - intros Hs.
    change (trim_end (String c (String d s)))
      with (match trim_end (String d s) with
            | EmptyString => if is_space c then EmptyString else String c EmptyString
            | String x r => String c (String x r)
            end).
    rewrite (IH Hs). reflexivity.
Qed.

Lemma trim_start_unchanged (s : string) :
  starts_with_space s = false -> trim_start s = s.
Proof. destruct s; simpl; [reflexivity | intros ->; reflexivity]. Qed.

Lemma trim_start_before (b t : string) :
  starts_with_space t = false -> trim_start (b ++ t) = trim_start b ++ t.
Proof.
  intros Ht. induction b as [| c b IH].
  - apply trim_start_unchanged, Ht.
  - simpl. destruct (is_space c); [exact IH | reflexivity].
Qed.

(** A closing fence that is followed by white space, such as a final line
    break, is not removed: the pattern needs the fence at the very end and
    the trimming comes after it.  The second attempt then parses the inner
    text with the closing fence still attached. *)
Theorem closing_fence_before_space_stays (ws0 inner ws : string) :
  all_space ws0 = true ->
  all_space ws = true ->
  ws <> "" ->
  cleaned ("```json" ++ ws0 ++ inner ++ "```" ++ ws) = trim_start inner ++ "```".
Proof.
  intros H0 Hw Hne. unfold cleaned, strip_open.
  rewrite strip_prefix_app, (trim_start_all_space _ _ H0).
  assert (Hs : trim_start (inner ++ "```" ++ ws)
               = (trim_start inner ++ "```") ++ ws).
  { rewrite trim_start_before by reflexivity. now rewrite append_assoc. }
  rewrite strip_close_unchanged.
  - unfold trim. rewrite trim_start_idempotent, Hs.
    rewrite (trim_end_before_spaces _ _ Hw).
    apply trim_end_unchanged, fence_end_is_not_space.
  - rewrite Hs. apply space_end_is_not_fence, ends_with_space_app; assumption.
Qed.

Lemma closing_fence_before_space_stays_witness :
  cleaned ("```json" ++ LF ++ OBJECT_EXAMPLE ++ "```" ++ LF)
  = OBJECT_EXAMPLE ++ "```".
Proof.
  refine (closing_fence_before_space_stays LF OBJECT_EXAMPLE LF _ _ _);
    [reflexivity | reflexivity | discriminate].
Defined.

(** An opening fence that comes after white space is not removed either:
    the pattern is anchored at the very start of the text.  What the second
    attempt parses still begins with the fence and its tag. *)
Theorem opening_fence_after_space_stays (ws rest : string) :
  all_space ws = true ->
  ws <> "" ->
  cleaned (ws ++ "```json" ++ rest) = "```json" ++ trim_end (strip_close rest).
Proof.
  intros Hw Hne. unfold cleaned.
  assert (Ho : strip_open (ws ++ "```json" ++ rest) = ws ++ "```json" ++ rest).
  { destruct ws as [| c ws]; [congruence |].
    cbn [all_space] in Hw. apply andb_prop in Hw as [Hc _].
    unfold strip_open. cbn [append strip_prefix].
    rewrite Ascii.eqb_sym, (space_is_not_backtick _ Hc). reflexivity. }
  rewrite Ho, (strip_close_after_spaces _ _ Hw).
  assert (Hc : strip_close ("```json" ++ rest) = "```json" ++ strip_close rest).
  { simpl. reflexivity. }
  rewrite Hc. unfold trim. rewrite (trim_start_all_space _ _ Hw).
  rewrite trim_start_unchanged by reflexivity.
  cbn [append]. rewrite !trim_end_cons by reflexivity. reflexivity.
Qed.

Lemma opening_fence_after_space_stays_witness :
  cleaned (LF ++ FENCED_EXAMPLE) = "```json" ++ LF ++ OBJECT_EXAMPLE.
Proof.
  refine (opening_fence_after_space_stays LF
            (LF ++ OBJECT_EXAMPLE ++ LF ++ "```") _ _);
    [reflexivity | discriminate].
Defined.

(** ** Further properties of the JSON recovery *)

(** On a string [tryParseJSON] always returns and never throws.  What it
    returns is a parsed value with [error: null], or [json: null] with a
    message; it leaves the questions alone and calls JSON.parse once, on the
    text, or twice, on the text and then on the cleaned text. *)
Theorem tryParseJSON_result_shape (E : Env) (text : string) (w : World) :
  exists r,
    fst (tryParseJSON E (JStr text) w) = Returned r /\
    (error r = JNull \/ (json r = JNull /\ exists m, error r = JStr m)) /\
    store (snd (tryParseJSON E (JStr text) w)) = store w /\
    (new_events w (snd (tryParseJSON E (JStr text) w)) = [EvJSONParse text] \/
     new_events w (snd (tryParseJSON E (JStr text) w))
     = [EvJSONParse text; EvJSONParse (cleaned text)]).
Proof.
  unfold new_events. destruct (JSON_parse E text) as [v | e1] eqn:Hp.
  - rewrite (tryParseJSON_first _ _ _ _ Hp). tidy. rewrite skipn_length_app.
    eexists. repeat split; [now left | now left].
  - rewrite (tryParseJSON_second _ _ _ _ Hp). tidy. rewrite skipn_length_app.
    destruct (JSON_parse E (cleaned text)) as [v | e2];
      eexists; repeat split; tidy; try (now left); try (now right).
    right. split; [reflexivity | eexists; reflexivity].
Qed.

(** A text with no fence to strip gets a second attempt all the same: when
    the strict parse fails, the text does not start with [```json] and does
    not end with [```], the second attempt parses the trimmed text. *)
Theorem tryParseJSON_unfenced (E : Env) (text : string) (w : World)
  (e1 : string) :
  JSON_parse E text = Thrown e1 ->
  strip_prefix "```json" text = None ->
  ~ ends_with_fence text ->
  cleaned text = trim text /\
  new_events w (snd (tryParseJSON E (JStr text) w))
  = [EvJSONParse text; EvJSONParse (trim text)] /\
  fst (tryParseJSON E (JStr text) w)
  = Returned match JSON_parse E (trim text) with
             | Returned v => {| json := v; error := JNull |}
             | Thrown e2 => {| json := JNull; error := JStr e2 |}
             end.
Proof.
  intros Hp Ho Hc.
  assert (Hclean : cleaned text = trim text).
  { unfold cleaned, strip_open. rewrite Ho, (strip_close_unchanged _ Hc).
    reflexivity. }
  rewrite (tryParseJSON_second _ _ _ _ Hp), Hclean. unfold new_events. tidy.
  rewrite skipn_length_app. auto.
Qed.

Lemma tryParseJSON_unfenced_witness :
  fst (tryParseJSON (reference_env (answering "")) (JStr (LF ++ "[1] x "))
         empty_world)
  = Returned {| json := JNull; error := JStr Reference.SYNTAX_ERROR |}.
Proof.
  refine (proj2 (proj2 (tryParseJSON_unfenced (reference_env (answering ""))
                          (LF ++ "[1] x ") empty_world
                          Reference.SYNTAX_ERROR _ _ _))).
  - reflexivity.
  - reflexivity.
  - apply space_end_is_not_fence. reflexivity.
Defined.

(** When the text handed over is not a string and its string form is not
    JSON, [tryParseJSON] does not return a failure: [text.replace] is not
    callable and the call throws, after the one JSON.parse.  The
    generate-questions handler then answers with its catch-all 500 and
    that message, not with "Gemini returned invalid JSON". *)
Theorem tryParseJSON_not_a_string (E : Env) (text : value) (w : World)
  (e1 : string) :
  (forall s, text <> JStr s) ->
  JSON_parse E (ToString (Number_toString E) text) = Thrown e1 ->
  exists message,
    fst (tryParseJSON E text w) = Thrown message /\
    new_events w (snd (tryParseJSON E text w))
    = [EvJSONParse (ToString (Number_toString E) text)] /\
    (forall req_body w' response,
       nullish req_body = false ->
       truthy (own_prop req_body "role") = true ->
       truthy (own_prop req_body "experience") = true ->
       truthy (own_prop req_body "topicsToFocus") = true ->
       truthy (own_prop req_body "numberOfQuestions") = true ->
       generateContent E
         (provider_request
            (questionAnswerPrompt E (own_prop req_body "role")
               (own_prop req_body "experience")
               (own_prop req_body "topicsToFocus")
               (own_prop req_body "numberOfQuestions"))) = Returned response ->
       getGeminiText response = Returned text ->
       truthy text = true ->
       fst (generateInterviewQuestions E req_body w')
       = Returned (QUESTIONS_FAILED message)).
Proof.
  intros Hns Hp.
  assert (Hc : exists message, clean_call text = Thrown message).
  { destruct text; try (eexists; reflexivity). destruct (Hns s eq_refl). }
  destruct Hc as [message Hc]. exists message.
  assert (Hrun : forall w0, tryParseJSON E text w0
                 = (Thrown message,
                    {| store := store w0;
                       log := log w0
                                ++ [EvJSONParse (ToString (Number_toString E) text)] |})).
  { intros w0. cbv [tryParseJSON try_catch bind lift ret emit JSON_parse_call].
    tidy. rewrite Hp, Hc. reflexivity. }
  repeat split.
  - rewrite Hrun. reflexivity.
  - rewrite Hrun. unfold new_events. tidy. apply skipn_length_app.
  - intros req_body w' response Hb Hr He Ht Hn Hgen Hget Htext.
    unfold generateInterviewQuestions. run_steps.
    rewrite !(destructure_defined _ _ _ Hb), Hr, He, Ht, Hn. tidy.
    rewrite Hgen. tidy. rewrite Hget. tidy. rewrite Htext. tidy.
    rewrite Hrun. reflexivity.
Qed.

Lemma tryParseJSON_not_a_string_witness :
  exists message,
    fst (tryParseJSON (reference_env (answering "")) (JArr [JNum 1; JNum 2])
           empty_world) = Thrown message /\
    new_events empty_world
      (snd (tryParseJSON (reference_env (answering "")) (JArr [JNum 1; JNum 2])
              empty_world))
    = [EvJSONParse "1,2"].
Proof.
  destruct (tryParseJSON_not_a_string (reference_env (answering ""))
              (JArr [JNum 1; JNum 2]) empty_world Reference.SYNTAX_ERROR)
    as (message & H1 & H2 & _).
  - discriminate.
  - reflexivity.
  - exists message. split; [exact H1 | exact H2].
Defined.

(** ** Further properties of the response extractor *)

(** Only the first candidate and its first part are read: whatever the other
    candidates and parts hold, the result is the truthy [text] of the first
    part of the first candidate, and [null] when that is missing or falsy. *)
Theorem getGeminiText_reads_first_only (fields : list (string * value))
  (candidate : value) (others : list value) :
  assoc "candidates" fields = JArr (candidate :: others) ->
  getGeminiText (JObj fields)
  = getGeminiText (JObj [("candidates", JArr [candidate])]) /\
  (forall content_fields part parts,
     own_prop candidate "content" = JObj content_fields ->
     nullish candidate = false ->
     assoc "parts" content_fields = JArr (part :: parts) ->
     getGeminiText (JObj fields)
     = Returned (if truthy (opt_get part "text") then opt_get part "text"
                 else JNull)).
Proof.
  intros Hc. split.
  - unfold getGeminiText. cbn. rewrite Hc. reflexivity.
  - intros content_fields part parts Hcontent Hn Hparts.
    destruct (nullish part) eqn:Hp.
    + unfold getGeminiText. cbn. rewrite Hc. cbn.
      unfold opt_get at 4. rewrite Hn, Hcontent. cbn. rewrite Hparts. cbn.
      unfold opt_get. rewrite Hp. reflexivity.
    + rewrite (opt_get_defined _ _ Hp).
      apply getGeminiText_at_path.
      exists (JArr (candidate :: others)), candidate, (JObj content_fields),
        (JArr (part :: parts)), part.
      unfold has_prop. cbn. repeat split; assumption.
Qed.

Lemma getGeminiText_reads_first_only_witness :
  getGeminiText
    (JObj [("candidates",
            JArr [JObj [("content", JObj [("parts", JArr [JObj []])])];
                  JObj [("content",
                         JObj [("parts", JArr [JObj [("text", JStr "late")]])])]])])
  = Returned JNull.
Proof.
  refine (proj2 (getGeminiText_reads_first_only _
                   (JObj [("content", JObj [("parts", JArr [JObj []])])]) _ _)
            [("parts", JArr [JObj []])] (JObj []) [] _ _ _);
    reflexivity.
Defined.

(** ** Further properties of the generate-questions handler *)

Lemma generateInterviewQuestions_runs (E : Env) (req_body : value) (w : World) :
  exists r w' evs,
    generateInterviewQuestions E req_body w = (Returned r, w') /\
    store w' = store w /\
    log w' = (log w ++ evs)%list /\
    questions_run_ok r evs.
Proof.
  unfold generateInterviewQuestions. run_handler.
  repeat (branch; tidy); name_run.
  all: constructor; cbn;
    try lia; try reflexivity; try (intros; discriminate);
    try (intros; eexists; reflexivity);
    try (intros H; exfalso; apply H; reflexivity);
    try (intros; eexists; split; [reflexivity | assumption]);
    try (left; split; [reflexivity | eexists; reflexivity]);
    try (right; split; [reflexivity | intros m; discriminate]);
    auto.
Qed.

(** ** Further properties of the explanation handler *)

Lemma update_answer_ids (id a : string) (st : list Question) :
  map qid (update_answer id a st) = map qid st.
Proof.
  induction st as [| q st IH]; [reflexivity |].
  simpl. destruct (String.eqb (qid q) id); simpl; [reflexivity | now rewrite IH].
Qed.

Lemma update_answer_others (id a : string) (st : list Question) (q : Question) :
  In q st -> qid q <> id -> In q (update_answer id a st).
Proof.
  intros Hin Hne. induction st as [| x st IH]; [destruct Hin |].
  simpl. destruct (String.eqb (qid x) id) eqn:Hx.
  - destruct Hin as [-> | Hin]; [| right; exact Hin].
    apply String.eqb_eq in Hx. contradiction.
  - destruct Hin as [-> | Hin]; [left; reflexivity | right; exact (IH Hin)].
Qed.

Lemma generateConceptExplanation_runs (E : Env) (req_body : value) (w : World) :
  exists r w' evs,
    generateConceptExplanation E req_body w = (Returned r, w') /\
    log w' = (log w ++ evs)%list /\
    explanation_run_ok (own_prop req_body "questionId") (store w) (store w')
      r evs.
Proof.
  unfold generateConceptExplanation. run_handler.
  destruct (nullish req_body) eqn:Hb.
  - destruct req_body; try discriminate; cbn [destructure]; tidy;
      do 3 eexists; (split; [reflexivity |]); tidy;
      (split; [reflexivity |]);
      constructor; cbn; try lia; auto;
      try (intros; eexists; reflexivity); intros; discriminate.
  - rewrite !(destructure_defined _ _ _ Hb).
    destruct (own_prop req_body "questionId") as [| | b | f | s | l | fs] eqn:Hid.
    all: repeat (branch; tidy).
    all: try match goal with
             | H : find_question ?i _ = Some _ |- _ =>
                 lazymatch i with
                 | JStr _ => fail
                 | _ => now (cbn in H; discriminate H)
                 end
             end.
    all: do 3 eexists; (split; [reflexivity |]); tidy;
      (split; [first [ rewrite <- ?app_assoc; reflexivity
                     | symmetry; apply app_nil_r ] |]).
    all: constructor; tidy; cbn [app count_events filter is_generate is_parse
                                   is_lookup is_update List.length];
      try lia; try reflexivity;
      try (intros; eexists; reflexivity);
      try (intros H; exfalso; apply H; reflexivity);
      try (intros; discriminate);
      try (cbn; auto; fail);
      try apply update_answer_ids;
      try (intros q0 Hin Hne; apply update_answer_others;
           [exact Hin | congruence]).
    all: intros _;
      match goal with
      | H : find_question (JStr _) _ = Some ?q |- _ =>
          exists q; eexists; eexists;
          split; [exact H |];
          split; [cbn [rev app]; unfold newAnswer, prior_answer; reflexivity |];
          unfold with_answer, newAnswer, prior_answer;
          rewrite (find_after_update _ _ _ _ H); split; reflexivity
      end.
Qed.

Lemma new_events_of_log (w w' : World) (evs : list event) :
  log w' = (log w ++ evs)%list -> new_events w w' = evs.
Proof. intros H. unfold new_events. rewrite H. apply skipn_length_app. Qed.

(** The generate-questions handler has nothing to do with the stored
    questions: on every request it leaves them as they are and makes no
    lookup and no update, and its status is 200, 400 or 500, never 404. *)
Theorem generateInterviewQuestions_no_database (E : Env) (req_body : value)
  (w : World) :
  store (snd (generateInterviewQuestions E req_body w)) = store w /\
  count_events is_lookup
    (new_events w (snd (generateInterviewQuestions E req_body w))) = 0%nat /\
  count_events is_update
    (new_events w (snd (generateInterviewQuestions E req_body w))) = 0%nat /\
  exists r,
    fst (generateInterviewQuestions E req_body w) = Returned r /\
    (status r = 200 \/ status r = 400 \/ status r = 500).
Proof.
  destruct (generateInterviewQuestions_runs E req_body w)
    as (r & w' & evs & Hrun & Hstore & Hlog & Hok).
  rewrite Hrun. tidy. rewrite (new_events_of_log _ _ _ Hlog).
  destruct Hok. repeat split; try assumption. exists r. auto.
Qed.

(** No retries: on every request each handler calls the provider at most
    once and JSON.parse at most twice; the explanation handler looks the
    question up at most once and updates only after a lookup. *)
Theorem handlers_call_provider_once (E : Env) (req_body : value) (w : World) :
  let asked := new_events w (snd (generateInterviewQuestions E req_body w)) in
  let explained := new_events w (snd (generateConceptExplanation E req_body w)) in
  (count_events is_generate asked <= 1)%nat /\
  (count_events is_parse asked <= 2)%nat /\
  (count_events is_generate explained <= 1)%nat /\
  (count_events is_parse explained <= 2)%nat /\
  (count_events is_lookup explained <= 1)%nat /\
  (count_events is_update explained <= count_events is_lookup explained)%nat.
Proof.
  intros asked explained. subst asked explained.
  destruct (generateInterviewQuestions_runs E req_body w)
    as (r & w' & evs & Hrun & _ & Hlog & Hok).
  destruct (generateConceptExplanation_runs E req_body w)
    as (r2 & w2 & evs2 & Hrun2 & Hlog2 & Hok2).
  rewrite Hrun, Hrun2. tidy.
  rewrite (new_events_of_log _ _ _ Hlog), (new_events_of_log _ _ _ Hlog2).
  destruct Hok, Hok2. repeat split; assumption.
Qed.

(** Every response other than a 200, from either handler, is an object with
    a [message] string; the statuses of the explanation handler are 200,
    400, 404 and 500. *)
Theorem error_responses_carry_message (E : Env) (req_body : value) (w : World) :
  (exists r,
     fst (generateInterviewQuestions E req_body w) = Returned r /\
     (status r <> 200 -> exists m, own_prop (body r) "message" = JStr m)) /\
  (exists r,
     fst (generateConceptExplanation E req_body w) = Returned r /\
     (status r = 200 \/ status r = 400 \/ status r = 404 \/ status r = 500) /\
     (status r <> 200 -> exists m, own_prop (body r) "message" = JStr m)).
Proof.
  destruct (generateInterviewQuestions_runs E req_body w)
    as (r & w' & evs & Hrun & _ & _ & Hok).
  destruct (generateConceptExplanation_runs E req_body w)
    as (r2 & w2 & evs2 & Hrun2 & _ & Hok2).
  rewrite Hrun, Hrun2. destruct Hok, Hok2. split.
  - exists r. auto.
  - exists r2. auto.
Qed.

(** A 200 from the generate-questions handler always carries, as
    [questions], a parsed value that is truthy; nothing else about the value
    is checked. *)
Theorem generateInterviewQuestions_success_is_truthy (E : Env)
  (req_body : value) (w : World) :
  exists r,
    fst (generateInterviewQuestions E req_body w) = Returned r /\
    (status r = 200 ->
     exists v, body r = JObj [("questions", v)] /\ truthy v = true).
Proof.
  destruct (generateInterviewQuestions_runs E req_body w)
    as (r & w' & evs & Hrun & _ & _ & Hok).
  rewrite Hrun. destruct Hok. exists r. auto.
Qed.

(** The explanation handler changes the stored questions in one way only: on
    every request the identifiers stay as they were, in the same order,
    every question with another identifier is still there unchanged, and
    with a status other than 200 nothing is changed at all. *)
Theorem generateConceptExplanation_store_shape (E : Env) (req_body : value)
  (w : World) :
  let after := store (snd (generateConceptExplanation E req_body w)) in
  map qid after = map qid (store w) /\
  (forall q, In q (store w) ->
             JStr (qid q) <> own_prop req_body "questionId" -> In q after) /\
  exists r,
    fst (generateConceptExplanation E req_body w) = Returned r /\
    (status r <> 200 -> after = store w).
Proof.
  intros after. subst after.
  destruct (generateConceptExplanation_runs E req_body w)
    as (r & w' & evs & Hrun & _ & Hok).
  rewrite Hrun. tidy. destruct Hok. repeat split; try assumption.
  exists r. auto.
Qed.

(** A 200 from the explanation handler means the explanation was stored:
    the question was found, the last two calls were the lookup and then the
    update, the stored answer is the prior answer, the separator and the
    explanation, and the response carries the updated record. *)
Theorem generateConceptExplanation_success_means_stored (E : Env)
  (req_body : value) (w : World) :
  let questionId := own_prop req_body "questionId" in
  let after := snd (generateConceptExplanation E req_body w) in
  exists r,
    fst (generateConceptExplanation E req_body w) = Returned r /\
    (status r = 200 ->
     exists existing explanation earlier,
       find_question questionId (store w) = Some existing /\
       rev (new_events w after)
       = EvFindByIdAndUpdate questionId
           (prior_answer existing ++ SEPARATOR ++ explanation)
           :: EvFindById questionId :: earlier /\
       find_question questionId (store after)
       = Some (with_answer existing
                 (prior_answer existing ++ SEPARATOR ++ explanation)) /\
       body r
       = JObj [("question",
                doc_value
                  (Some (with_answer existing
                           (prior_answer existing ++ SEPARATOR ++ explanation))))]).
Proof.
  intros questionId after. subst questionId after.
  destruct (generateConceptExplanation_runs E req_body w)
    as (r & w' & evs & Hrun & Hlog & Hok).
  rewrite Hrun. tidy. rewrite (new_events_of_log _ _ _ Hlog).
  destruct Hok. exists r. auto.
Qed.

(** ** The handlers from end to end *)

(** Valid JSON for a falsy value ([null], [false], [0], the empty string) is
    parsed at the first attempt and then reported as invalid: the
    generate-questions handler answers 500 "Gemini returned invalid JSON"
    with the raw text and [error: null]. *)
Theorem generateInterviewQuestions_falsy_json (E : Env) (req_body : value)
  (w : World) (response : value) (text : string) (v : value) :
  nullish req_body = false ->
  truthy (own_prop req_body "role") = true ->
  truthy (own_prop req_body "experience") = true ->
  truthy (own_prop req_body "topicsToFocus") = true ->
  truthy (own_prop req_body "numberOfQuestions") = true ->
  let request :=
    provider_request
      (questionAnswerPrompt E (own_prop req_body "role")
         (own_prop req_body "experience")
         (own_prop req_body "topicsToFocus")
         (own_prop req_body "numberOfQuestions")) in
  generateContent E request = Returned response ->
  getGeminiText response = Returned (JStr text) ->
  text <> "" ->
  JSON_parse E text = Returned v ->
  truthy v = false ->
  generateInterviewQuestions E req_body w
  = (Returned (INVALID_JSON_NO_ERROR text),
     {| store := store w;
        log := log w ++ [EvGenerateContent request; EvJSONParse text] |}).
Proof.
  intros Hb Hr He Ht Hn request Hgen Hget Hne Hp Hv.
  unfold generateInterviewQuestions. run_steps.
  rewrite !(destructure_defined _ _ _ Hb), Hr, He, Ht, Hn. tidy.
  fold request. rewrite Hgen. tidy. rewrite Hget. tidy.
  rewrite (truthy_nonempty _ Hne). tidy.
  rewrite (tryParseJSON_first _ _ _ _ Hp). tidy. rewrite Hv.
  rewrite <- app_assoc. reflexivity.
Qed.

Lemma generateInterviewQuestions_falsy_json_witness :
  fst (generateInterviewQuestions (reference_env (answering "0"))
         generation_body empty_world)
  = Returned (INVALID_JSON_NO_ERROR "0").
Proof.
  refine (f_equal fst
            (generateInterviewQuestions_falsy_json
               (reference_env (answering "0")) generation_body empty_world
               (response_with_text "0") "0" (JNum 0) _ _ _ _ _ _ _ _ _ _));
    try reflexivity.
  discriminate.
Defined.

(** A fenced answer goes through: when the provider text is [```json],
    white space, an inner text and [```], its strict parse fails and the
    trimmed inner text parses to a truthy value, the answer is 200 with that
    value as [questions], after one provider call and two parses. *)
Theorem generateInterviewQuestions_fenced_success (E : Env) (req_body : value)
  (w : World) (response : value) (ws inner e1 : string) (v : value) :
  nullish req_body = false ->
  truthy (own_prop req_body "role") = true ->
  truthy (own_prop req_body "experience") = true ->
  truthy (own_prop req_body "topicsToFocus") = true ->
  truthy (own_prop req_body "numberOfQuestions") = true ->
  let request :=
    provider_request
      (questionAnswerPrompt E (own_prop req_body "role")
         (own_prop req_body "experience")
         (own_prop req_body "topicsToFocus")
         (own_prop req_body "numberOfQuestions")) in
  let text := "```json" ++ ws ++ inner ++ "```" in
  generateContent E request = Returned response ->
  getGeminiText response = Returned (JStr text) ->
  all_space ws = true ->
  JSON_parse E text = Thrown e1 ->
  JSON_parse E (trim inner) = Returned v ->
  truthy v = true ->
  generateInterviewQuestions E req_body w
  = (Returned (QUESTIONS v),
     {| store := store w;
        log := log w ++ [EvGenerateContent request; EvJSONParse text;
                         EvJSONParse (trim inner)] |}).
Proof.
  intros Hb Hr He Ht Hn request text Hgen Hget Hws Hp1 Hp2 Hv.
  unfold generateInterviewQuestions. run_steps.
  rewrite !(destructure_defined _ _ _ Hb), Hr, He, Ht, Hn. tidy.
  fold request. rewrite Hgen. tidy. rewrite Hget. tidy.
  rewrite (truthy_nonempty text) by discriminate. tidy.
  assert (Hc : cleaned text = trim inner) by exact (cleaned_fenced _ _ Hws).
  rewrite (tryParseJSON_second _ _ _ _ Hp1), Hc, Hp2. tidy. rewrite Hv.
  rewrite <- app_assoc. reflexivity.
Qed.

Lemma generateInterviewQuestions_fenced_success_witness :
  fst (generateInterviewQuestions (reference_env (answering FENCED_QUESTIONS))
         generation_body empty_world)
  = Returned (QUESTIONS (JArr [JObj [("question", JStr "Q1")]])).
Proof.
  refine (f_equal fst
            (generateInterviewQuestions_fenced_success
               (reference_env (answering FENCED_QUESTIONS)) generation_body
               empty_world (response_with_text FENCED_QUESTIONS) LF
               ("[{" ++ DQ ++ "question" ++ DQ ++ ":" ++ DQ ++ "Q1" ++ DQ
                  ++ "}]" ++ LF)
               Reference.SYNTAX_ERROR (JArr [JObj [("question", JStr "Q1")]])
               _ _ _ _ _ _ _ _ _ _ _));
    reflexivity.
Defined.

(** In a request that passes the validation of the generate-questions
    handler, a rejected provider call gives the catch-all 500 with the
    message of the rejection, logged once; a response with no text gives 500
    "No response from Gemini"; in both cases JSON.parse is never called. *)
Theorem generateInterviewQuestions_provider_failure (E : Env)
  (req_body : value) (w : World) :
  nullish req_body = false ->
  truthy (own_prop req_body "role") = true ->
  truthy (own_prop req_body "experience") = true ->
  truthy (own_prop req_body "topicsToFocus") = true ->
  truthy (own_prop req_body "numberOfQuestions") = true ->
  let request :=
    provider_request
      (questionAnswerPrompt E (own_prop req_body "role")
         (own_prop req_body "experience")
         (own_prop req_body "topicsToFocus")
         (own_prop req_body "numberOfQuestions")) in
  (forall message,
     generateContent E request = Thrown message ->
     generateInterviewQuestions E req_body w
     = (Returned (QUESTIONS_FAILED message),
        {| store := store w;
           log := log w ++ [EvGenerateContent request; EvConsoleError message] |})) /\
  (forall response t,
     generateContent E request = Returned response ->
     getGeminiText response = Returned t ->
     truthy t = false ->
     generateInterviewQuestions E req_body w
     = (Returned NO_RESPONSE,
        {| store := store w; log := log w ++ [EvGenerateContent request] |})).
Proof.
  intros Hb Hr He Ht Hn request. split.
  - intros message Hgen. unfold generateInterviewQuestions. run_steps.
    rewrite !(destructure_defined _ _ _ Hb), Hr, He, Ht, Hn. tidy.
    fold request. rewrite Hgen. tidy. rewrite <- app_assoc. reflexivity.
  - intros response t Hgen Hget Hf. unfold generateInterviewQuestions. run_steps.
    rewrite !(destructure_defined _ _ _ Hb), Hr, He, Ht, Hn. tidy.
    fold request. rewrite Hgen. tidy. rewrite Hget. tidy. rewrite Hf. reflexivity.
Qed.

Lemma generateInterviewQuestions_provider_failure_witness :
  fst (generateInterviewQuestions
         (reference_env (fun _ => Returned (JObj [("candidates", JArr [])])))
         generation_body empty_world)
  = Returned NO_RESPONSE.
Proof.
  refine (f_equal fst
            (proj2 (generateInterviewQuestions_provider_failure
                      (reference_env
                         (fun _ => Returned (JObj [("candidates", JArr [])])))
                      generation_body empty_world _ _ _ _ _)
               (JObj [("candidates", JArr [])]) JNull _ _ _));
    reflexivity.
Defined.

(** A request with no body ([req.body] is [undefined] or [null]) is not
    answered 400: the destructuring throws, and each handler answers its
    catch-all 500 with the message of the TypeError, logs it, and calls
    neither the provider nor the database. *)
Theorem handlers_without_body (E : Env) (req_body : value) (w : World) :
  nullish req_body = true ->
  exists m1 m2,
    generateInterviewQuestions E req_body w
    = (Returned (QUESTIONS_FAILED m1),
       {| store := store w; log := log w ++ [EvConsoleError m1] |}) /\
    generateConceptExplanation E req_body w
    = (Returned (EXPLANATION_FAILED m2),
       {| store := store w; log := log w ++ [EvConsoleError m2] |}).
Proof.
  intros Hb. destruct req_body; try discriminate;
    do 2 eexists; split; reflexivity.
Qed.

Lemma handlers_without_body_witness :
  exists m1 m2,
    generateInterviewQuestions (reference_env (answering "[]")) JUndefined
      sample_world
    = (Returned (QUESTIONS_FAILED m1),
       {| store := [sample_question]; log := [EvConsoleError m1] |}) /\
    generateConceptExplanation (reference_env (answering "[]")) JUndefined
      sample_world
    = (Returned (EXPLANATION_FAILED m2),
       {| store := [sample_question]; log := [EvConsoleError m2] |}).
Proof.
  exact (handlers_without_body (reference_env (answering "[]")) JUndefined
           sample_world eq_refl).
Defined.



Lemma appendExplanation_run (E : Env) (questionId explanation : value)
  (w : World) (existing : Question) :
  find_question questionId (store w) = Some existing ->
  findById_fault E questionId = None ->
  let stored :=
    prior_answer existing ++ SEPARATOR
      ++ ToString (Number_toString E) explanation in
  findByIdAndUpdate_fault E questionId stored = None ->
  appendExplanation E questionId explanation w
  = (Returned (UPDATED (with_answer existing stored)),
     {| store := update_answer (qid existing) stored (store w);
        log := log w ++ [EvFindById questionId;
                         EvFindByIdAndUpdate questionId stored] |}).
Proof.
  intros Hfind Hf1 stored Hf2.
  pose proof (find_question_is_string _ _ _ Hfind) as Hid.
  run_handler. rewrite Hf1. tidy. rewrite Hfind.
  change (newAnswer (Number_toString E) existing explanation) with stored.
  rewrite Hf2. subst questionId. tidy.
  rewrite (find_after_update _ stored _ _ Hfind).
  rewrite <- app_assoc. reflexivity.
Qed.

Lemma deriveExplanation_primitive (toStr : float -> string) (v text : value) :
  typeof_is_object v = false -> deriveExplanation toStr v text = Returned text.
Proof.
  intros Hv. unfold deriveExplanation.
  assert (Hf : truthy (opt_get v "explanation") = false)
    by (destruct v; try discriminate; reflexivity).
  rewrite Hf, Hv. reflexivity.
Qed.

Lemma generateConceptExplanation_first_parse (E : Env) (req_body : value)
  (w : World) (response : value) (text : string) (v x : value)
  (existing : Question) :
  nullish req_body = false ->
  truthy (own_prop req_body "questionId") = true ->
  truthy (own_prop req_body "question") = true ->
  let questionId := own_prop req_body "questionId" in
  let request :=
    provider_request (conceptExplainPrompt E (own_prop req_body "question")) in
  let stored :=
    prior_answer existing ++ SEPARATOR ++ ToString (Number_toString E) x in
  generateContent E request = Returned response ->
  getGeminiText response = Returned (JStr text) ->
  text <> "" ->
  JSON_parse E text = Returned v ->
  deriveExplanation (Number_toString E) v (JStr text) = Returned x ->
  find_question questionId (store w) = Some existing ->
  findById_fault E questionId = None ->
  findByIdAndUpdate_fault E questionId stored = None ->
  generateConceptExplanation E req_body w
  = (Returned (UPDATED (with_answer existing stored)),
     {| store := update_answer (qid existing) stored (store w);
        log := log w ++ [EvGenerateContent request; EvJSONParse text;
                         EvFindById questionId;
                         EvFindByIdAndUpdate questionId stored] |}).
Proof.
  intros Hb Hq Hx questionId request stored Hgen Hget Hne Hp Hd Hfind Hf1 Hf2.
  unfold generateConceptExplanation. run_steps.
  rewrite !(destructure_defined _ _ _ Hb), Hq, Hx. tidy.
  fold request. rewrite Hgen. tidy. rewrite Hget. tidy.
  rewrite (truthy_nonempty _ Hne). tidy.
  rewrite (tryParseJSON_first _ _ _ _ Hp). tidy. rewrite Hd.
  fold questionId.
  match goal with
  | |- context [appendExplanation E _ x ?W] =>
      rewrite (appendExplanation_run E questionId x W existing Hfind Hf1 Hf2)
  end.
  tidy. rewrite <- !app_assoc. reflexivity.
Qed.



(** From end to end with JSON that is not an object: when the provider text
    parses at once to a string, a number or a boolean, the explanation is
    the raw text, as the provider sent it, and that is what is appended to
    the prior answer. *)
Theorem generateConceptExplanation_primitive_json (E : Env)
  (req_body : value) (w : World) (response : value) (text : string)
  (v : value) (existing : Question) :
  nullish req_body = false ->
  truthy (own_prop req_body "questionId") = true ->
  truthy (own_prop req_body "question") = true ->
  let questionId := own_prop req_body "questionId" in
  let request :=
    provider_request (conceptExplainPrompt E (own_prop req_body "question")) in
  let stored := prior_answer existing ++ SEPARATOR ++ text in
  generateContent E request = Returned response ->
  getGeminiText response = Returned (JStr text) ->
  text <> "" ->
  JSON_parse E text = Returned v ->
  typeof_is_object v = false ->
  find_question questionId (store w) = Some existing ->
  findById_fault E questionId = None ->
  findByIdAndUpdate_fault E questionId stored = None ->
  generateConceptExplanation E req_body w
  = (Returned (UPDATED (with_answer existing stored)),
     {| store := update_answer (qid existing) stored (store w);
        log := log w ++ [EvGenerateContent request; EvJSONParse text;
                         EvFindById questionId;
                         EvFindByIdAndUpdate questionId stored] |}).
Proof.
  intros Hb Hq Hx questionId request stored Hgen Hget Hne Hp Hv Hfind Hf1 Hf2.
  apply (generateConceptExplanation_first_parse E req_body w response text v
           (JStr text)); try assumption.
  apply deriveExplanation_primitive, Hv.
Qed.

Lemma generateConceptExplanation_primitive_json_witness :
  fst (generateConceptExplanation (reference_env (answering "42"))
         explanation_body sample_world)
  = Returned
      (UPDATED (with_answer sample_question
                  ("A" ++ LF ++ LF ++ "Explanation:" ++ LF ++ "42"))).
Proof.
  refine (f_equal fst
            (generateConceptExplanation_primitive_json
               (reference_env (answering "42")) explanation_body sample_world
               (response_with_text "42") "42" (JNum 42) sample_question
               _ _ _ _ _ _ _ _ _ _ _));
    try reflexivity.
  discriminate.
Defined.

(** Explanations accumulate: appending [e1] and then [e2] to the same
    question leaves the prior answer, the separator, [e1], the separator
    and [e2]; the result of the first append is a prefix of the result of
    the second, so nothing stored is ever replaced. *)
Theorem appendExplanation_twice (E : Env) (w : World) (questionId : value)
  (existing : Question) (e1 e2 : string) :
  find_question questionId (store w) = Some existing ->
  findById_fault E questionId = None ->
  let first := prior_answer existing ++ SEPARATOR ++ e1 in
  let second := first ++ SEPARATOR ++ e2 in
  findByIdAndUpdate_fault E questionId first = None ->
  findByIdAndUpdate_fault E questionId second = None ->
  let w1 := snd (appendExplanation E questionId (JStr e1) w) in
  let w2 := snd (appendExplanation E questionId (JStr e2) w1) in
  find_question questionId (store w1) = Some (with_answer existing first) /\
  find_question questionId (store w2) = Some (with_answer existing second) /\
  second = prior_answer existing ++ SEPARATOR ++ e1 ++ SEPARATOR ++ e2 /\
  String.prefix first second = true /\
  map qid (store w2) = map qid (store w).
Proof.
  intros Hfind Hf1 first second Hu1 Hu2 w1 w2.
  pose proof (find_question_is_string _ _ _ Hfind) as Hid. subst questionId.
  pose proof (appendExplanation_run E _ (JStr e1) w existing Hfind Hf1 Hu1)
    as H1.
  assert (Hfind1 : find_question (JStr (qid existing)) (store w1)
                   = Some (with_answer existing first)).
  { subst w1. rewrite H1. tidy. apply find_after_update, Hfind. }
  pose proof (appendExplanation_run E _ (JStr e2) w1
                (with_answer existing first) Hfind1 Hf1 Hu2) as H2.
  repeat split.
  - exact Hfind1.
  - subst w2. rewrite H2. tidy.
    exact (find_after_update (qid existing) second (store w1)
             (with_answer existing first) Hfind1).
  - unfold second, first. rewrite !append_assoc. reflexivity.
  - apply prefix_append.
  - subst w2. rewrite H2. tidy. rewrite update_answer_ids.
    subst w1. rewrite H1. tidy. apply update_answer_ids.
Qed.

Lemma appendExplanation_twice_witness :
  let E := reference_env (answering "") in
  find_question (JStr "q1")
    (store (snd (appendExplanation E (JStr "q1") (JStr "C")
                   (snd (appendExplanation E (JStr "q1") (JStr "B")
                           sample_world)))))
  = Some (with_answer sample_question
            ("A" ++ LF ++ LF ++ "Explanation:" ++ LF ++ "B"
               ++ LF ++ LF ++ "Explanation:" ++ LF ++ "C")).
Proof.
  intro E.
  refine (proj1 (proj2 (appendExplanation_twice E sample_world (JStr "q1")
                          sample_question "B" "C" _ _ _ _)));
    reflexivity.
Defined.

(** From end to end with JSON that [typeof] calls an object and that has no
    truthy [explanation]: an object or array without the property, or with
    an empty one, and also the JSON text [null].  The explanation is then
    the serialization of the parsed value, not the raw text, and that is
    what is appended to the prior answer. *)
Theorem generateConceptExplanation_object_json (E : Env)
  (req_body : value) (w : World) (response : value) (text : string)
  (v : value) (existing : Question) :
  nullish req_body = false ->
  truthy (own_prop req_body "questionId") = true ->
  truthy (own_prop req_body "question") = true ->
  let questionId := own_prop req_body "questionId" in
  let request :=
    provider_request (conceptExplainPrompt E (own_prop req_body "question")) in
  let stored :=
    prior_answer existing ++ SEPARATOR
      ++ ToString (Number_toString E) (JSON_stringify (Number_toString E) v) in
  generateContent E request = Returned response ->
  getGeminiText response = Returned (JStr text) ->
  text <> "" ->
  JSON_parse E text = Returned v ->
  typeof_is_object v = true ->
  truthy (opt_get v "explanation") = false ->
  find_question questionId (store w) = Some existing ->
  findById_fault E questionId = None ->
  findByIdAndUpdate_fault E questionId stored = None ->
  generateConceptExplanation E req_body w
  = (Returned (UPDATED (with_answer existing stored)),
     {| store := update_answer (qid existing) stored (store w);
        log := log w ++ [EvGenerateContent request; EvJSONParse text;
                         EvFindById questionId;
                         EvFindByIdAndUpdate questionId stored] |}) /\
  (v = JNull -> stored = prior_answer existing ++ SEPARATOR ++ "null").
Proof.
  intros Hb Hq Hx questionId request stored Hgen Hget Hne Hp Hv Hf Hfind Hf1 Hf2.
  split.
  - apply (generateConceptExplanation_first_parse E req_body w response text v
             (JSON_stringify (Number_toString E) v)); try assumption.
    unfold deriveExplanation. rewrite Hf, Hv. reflexivity.
  - intros ->. reflexivity.
Qed.

Lemma generateConceptExplanation_object_json_witness :
  fst (generateConceptExplanation
         (reference_env (answering EMPTY_EXPLANATION_JSON))
         explanation_body sample_world)
  = Returned
      (UPDATED (with_answer sample_question
                  ("A" ++ LF ++ LF ++ "Explanation:" ++ LF
                     ++ EMPTY_EXPLANATION_JSON))).
Proof.
  refine (f_equal fst
            (proj1 (generateConceptExplanation_object_json
                      (reference_env (answering EMPTY_EXPLANATION_JSON))
                      explanation_body sample_world
                      (response_with_text EMPTY_EXPLANATION_JSON)
                      EMPTY_EXPLANATION_JSON
                      (JObj [("explanation", JStr "")]) sample_question
                      _ _ _ _ _ _ _ _ _ _ _ _)));
    try reflexivity.
  discriminate.
Defined.

(** ** The fallback text, step by step *)

Lemma trim_start_split (s : string) :
  exists ws, all_space ws = true /\ s = ws ++ trim_start s.
Proof.
  induction s as [| c s (ws & Hws & IH)]; [exists ""; split; reflexivity |].
  simpl. destruct (is_space c) eqn:Hc.
  - exists (String c ws). simpl. rewrite Hc, Hws. split; [reflexivity |].
    now rewrite <- IH.
  - exists "". split; reflexivity.
Qed.

Lemma trim_end_split (s : string) :
  exists ws, all_space ws = true /\ s = trim_end s ++ ws.
Proof.
  induction s as [| c s (ws & Hws & IH)]; [exists ""; split; reflexivity |].
  simpl. destruct (trim_end s) as [| d t] eqn:Ht.
  - simpl in IH. subst ws. destruct (is_space c) eqn:Hc.
    + exists (String c s). simpl. rewrite Hc, Hws. split; reflexivity.
    + exists s. split; [exact Hws | reflexivity].
  - exists ws. split; [exact Hws |]. simpl. now rewrite IH at 1.
Qed.

Lemma trim_start_spaces (ws : string) : all_space ws = true -> trim_start ws = "".
Proof.
  induction ws as [| c ws IH]; [reflexivity |].
  cbn [all_space]. intros H. apply andb_prop in H as [Hc Hw].
  simpl. rewrite Hc. exact (IH Hw).
Qed.

Lemma strip_open_removes_opening (text a : string) :
  removes_opening text a <-> a = strip_open text.
Proof.
  unfold removes_opening, strip_open. split.
  - intros [(ws & Hws & Ha & ->) | [Hno ->]].
    + rewrite strip_prefix_app, (trim_start_all_space _ _ Hws).
      symmetry. apply trim_start_unchanged, Ha.
    + destruct (strip_prefix "```json" text) as [r |] eqn:Hp; [| reflexivity].
      apply strip_prefix_some in Hp. destruct (Hno r Hp).
  - intros ->. destruct (strip_prefix "```json" text) as [r |] eqn:Hp.
    + left. apply strip_prefix_some in Hp.
      destruct (trim_start_split r) as (ws & Hws & Hr).
      exists ws. repeat split; [exact Hws | apply trim_start_no_space |].
      rewrite <- Hr. exact Hp.
    + right. split; [| reflexivity]. intros rest ->.
      rewrite strip_prefix_app in Hp. discriminate.
Qed.

Lemma ends_with_fence_dec (s : string) :
  (exists p, s = p ++ "```" /\ strip_close s = p) \/
  (~ ends_with_fence s /\ strip_close s = s).
Proof.
  induction s as [| c s IH].
  - right. split; [| reflexivity]. intros [p Hp]. destruct p; discriminate.
  - cbn [strip_close]. destruct (String.eqb (String c s) "```") eqn:He.
    + left. exists "". apply String.eqb_eq in He. split; [exact He | reflexivity].
    + destruct IH as [(p & -> & Hs) | [Hn Hs]].
      * left. exists (String c p). rewrite Hs. split; reflexivity.
      * right. rewrite Hs. split; [| reflexivity].
        intros [p Hp]. destruct p as [| d p].
        -- simpl in Hp. rewrite Hp, String.eqb_refl in He. discriminate.
        -- simpl in Hp. injection Hp as _ Hp. apply Hn. exists p. exact Hp.
Qed.

Lemma strip_close_removes_closing (a b : string) :
  removes_closing a b <-> b = strip_close a.
Proof.
  unfold removes_closing. split.
  - intros [-> | [Hn ->]].
    + symmetry. apply strip_close_fence.
    + symmetry. apply strip_close_unchanged, Hn.
  - intros ->. destruct (ends_with_fence_dec a) as [(p & Ha & Hs) | [Hn Hs]].
    + left. rewrite Hs. exact Ha.
    + right. rewrite Hs. split; [exact Hn | reflexivity].
Qed.

Lemma trim_trims (b c : string) : trims b c <-> c = trim b.
Proof.
  unfold trims, trim. split.
  - intros (ws1 & ws2 & H1 & H2 & -> & Hs & He).
    rewrite (trim_start_all_space _ _ H1).
    destruct c as [| x c].
    + simpl. rewrite (trim_start_spaces _ H2). reflexivity.
    + change (is_space x = false) in Hs.
      change (String x c ++ ws2) with (String x (c ++ ws2)).
      cbn [trim_start]. rewrite Hs.
      change (String x (c ++ ws2)) with (String x c ++ ws2).
      rewrite (trim_end_before_spaces _ _ H2).
      symmetry. apply trim_end_unchanged, He.
  - intros ->.
    destruct (trim_start_split b) as (ws1 & H1 & Hb).
    destruct (trim_end_split (trim_start b)) as (ws2 & H2 & Ht).
    exists ws1, ws2. repeat split; try assumption.
    + rewrite <- Ht. exact Hb.
    + apply trim_end_keeps_start, trim_start_no_space.
    + apply trim_end_no_space.
Qed.

Lemma cleaned_step_by_step (text c : string) :
  (exists a b,
     removes_opening text a /\ removes_closing a b /\ trims b c)
  <-> c = cleaned text.
Proof.
  unfold cleaned. split.
  - intros (a & b & Ha & Hb & Hc).
    apply strip_open_removes_opening in Ha.
    apply strip_close_removes_closing in Hb.
    apply trim_trims in Hc. subst. reflexivity.
  - intros ->. exists (strip_open text), (strip_close (strip_open text)).
    split; [now apply strip_open_removes_opening |].
    split; [now apply strip_close_removes_closing | now apply trim_trims].
Qed.

(** C3, as the code has it.  When the strict parse of a text fails, the
    second attempt parses the cleaned text, and what that parse gives is
    what comes back.  The cleaned text is reached in three steps and in no
    other way.  First the seven characters [```json] at the very start go,
    with all the white space after them; the tag is required, so a text
    that does not start with [```json] (a fence with no tag, or with a tag
    that does not begin with [json]) keeps its start, and of a longer tag
    such as [jsonc] only [```json] goes.  Then [```] goes if these are the
    last three characters of what is left.  Then the white space around the
    rest goes.  For [```json], a line break, [{"a":1}], a line break and
    [```] the second attempt parses [{"a":1}] and returns its value. *)
Theorem tryParseJSON_fallback (E : Env) (text : string) (w : World)
  (e1 : string) :
  JSON_parse E text = Thrown e1 ->
  tryParseJSON E (JStr text) w =
    (Returned match JSON_parse E (cleaned text) with
              | Returned v => {| json := v; error := JNull |}
              | Thrown e2 => {| json := JNull; error := JStr e2 |}
              end,
     {| store := store w;
        log := log w ++ [EvJSONParse text; EvJSONParse (cleaned text)] |}) /\
  (forall s c,
     (exists a b, removes_opening s a /\ removes_closing a b /\ trims b c)
     <-> c = cleaned s) /\
  (forall ws inner, all_space ws = true ->
                    cleaned ("```json" ++ ws ++ inner ++ "```") = trim inner) /\
  (forall s, strip_prefix "```json" s = None -> cleaned s = trim (strip_close s)) /\
  (forall s, (forall rest, s <> "```json" ++ rest) ->
             exists b, removes_closing s b /\ trims b (cleaned s)) /\
  cleaned ("```jsonc" ++ LF ++ OBJECT_EXAMPLE ++ LF ++ "```")
  = "c" ++ LF ++ OBJECT_EXAMPLE /\
  cleaned FENCED_EXAMPLE = OBJECT_EXAMPLE /\
  (text = FENCED_EXAMPLE ->
   forall v, JSON_parse E OBJECT_EXAMPLE = Returned v ->
             fst (tryParseJSON E (JStr text) w)
             = Returned {| json := v; error := JNull |}).
Proof.
  intros H. split; [exact (tryParseJSON_second _ _ _ _ H) |].
  split; [exact cleaned_step_by_step |].
  split; [exact cleaned_fenced |].
  split; [intros s Hs; unfold cleaned, strip_open; rewrite Hs; reflexivity |].
  split.
  { intros s Hs.
    destruct (proj2 (cleaned_step_by_step s (cleaned s)) eq_refl)
      as (a & b & [(ws & _ & _ & Ha) | [_ ->]] & Hb & Hc).
    - destruct (Hs _ Ha).
    - exists b. split; assumption. }
  split; [reflexivity |]. split; [reflexivity |].
  intros -> v Hv. rewrite (tryParseJSON_second _ _ _ _ H).
  change (cleaned FENCED_EXAMPLE) with OBJECT_EXAMPLE. rewrite Hv. reflexivity.
Qed.

Lemma tryParseJSON_fallback_witness :
  JSON_parse (reference_env (answering "")) FENCED_EXAMPLE
  = Thrown Reference.SYNTAX_ERROR /\
  fst (tryParseJSON (reference_env (answering "")) (JStr FENCED_EXAMPLE)
         empty_world)
  = Returned {| json := JObj [("a", JNum 1)]; error := JNull |}.
Proof.
  assert (H : JSON_parse (reference_env (answering "")) FENCED_EXAMPLE
              = Thrown Reference.SYNTAX_ERROR) by reflexivity.
  split; [exact H |].
  refine (proj2 (proj2 (proj2 (proj2 (proj2 (proj2 (proj2
            (tryParseJSON_fallback (reference_env (answering ""))
               FENCED_EXAMPLE empty_world _ H))))))) eq_refl _ _).
  reflexivity.
Defined.

(** ** The validation of the generate-questions handler, on every body *)

Lemma new_events_none (w : World) : new_events w w = [].
Proof. apply new_events_of_log. symmetry. apply app_nil_r. Qed.

(** C7, as the code has it.  When one of [role], [experience],
    [topicsToFocus], [numberOfQuestions] is falsy, which covers a field that
    is absent ([undefined], [null]) or the empty string, the provider is
    never called.  If the body can be read the handler answers 400 "Missing
    required fields" and the world is as it was; if there is no body
    ([req.body] is [undefined] or [null]) it answers its catch-all 500.  An
    empty array and an empty object are truthy: the check lets them pass. *)
Theorem generateInterviewQuestions_missing_field (E : Env) (req_body : value)
  (w : World) :
  truthy (own_prop req_body "role")
    && truthy (own_prop req_body "experience")
    && truthy (own_prop req_body "topicsToFocus")
    && truthy (own_prop req_body "numberOfQuestions") = false ->
  (nullish req_body = false ->
   generateInterviewQuestions E req_body w = (Returned MISSING_FIELDS, w)) /\
  (nullish req_body = true ->
   exists m,
     generateInterviewQuestions E req_body w
     = (Returned (QUESTIONS_FAILED m),
        {| store := store w; log := log w ++ [EvConsoleError m] |})) /\
  count_events is_generate
    (new_events w (snd (generateInterviewQuestions E req_body w))) = 0%nat /\
  (forall v, absent_or_empty v -> truthy v = false) /\
  (forall elems, truthy (JArr elems) = true) /\
  (forall fields, truthy (JObj fields) = true).
Proof.
  intros Hf.
  assert (H400 : nullish req_body = false ->
                 generateInterviewQuestions E req_body w
                 = (Returned MISSING_FIELDS, w)).
  { intros Hb. apply generateInterviewQuestions_falsy_field; assumption. }
  assert (H500 : nullish req_body = true ->
                 exists m,
                   generateInterviewQuestions E req_body w
                   = (Returned (QUESTIONS_FAILED m),
                      {| store := store w;
                         log := log w ++ [EvConsoleError m] |})).
  { intros Hb. destruct req_body; try discriminate; eexists; reflexivity. }
  split; [exact H400 |]. split; [exact H500 |].
  split; [| split; [exact absent_or_empty_falsy | split; reflexivity]].
  destruct (nullish req_body) eqn:Hb.
  - destruct (H500 eq_refl) as [m ->]. tidy.
    rewrite (new_events_of_log w _ [EvConsoleError m]) by reflexivity.
    reflexivity.
  - rewrite (H400 eq_refl). tidy. rewrite new_events_none. reflexivity.
Qed.

Lemma generateInterviewQuestions_missing_field_witness :
  let req_body := JObj [("role", JStr "Backend Developer");
                        ("experience", JStr "");
                        ("numberOfQuestions", JNum 5)] in
  generateInterviewQuestions (reference_env (answering "[]")) req_body empty_world
  = (Returned MISSING_FIELDS, empty_world).
Proof.
  intro req_body.
  refine (proj1 (generateInterviewQuestions_missing_field
                   (reference_env (answering "[]")) req_body empty_world _) _);
    reflexivity.
Defined.

(** C7 as stated fails, in two ways.  With no body all four fields are
    absent and the answer is 500, not 400.  With [topicsToFocus] an empty
    array the check passes: the provider is called and the answer is 200. *)
Lemma missing_fields_not_rejected :
  absent_or_empty (own_prop JUndefined "role") /\
  fst (generateInterviewQuestions (reference_env (answering "[]")) JUndefined
         empty_world)
  = Returned
      (QUESTIONS_FAILED
         "Cannot destructure property 'role' of 'req.body' as it is undefined.") /\
  own_prop empty_topics_body "topicsToFocus" = JArr [] /\
  generateInterviewQuestions (reference_env (answering "[]")) empty_topics_body
    empty_world
  = (Returned (QUESTIONS (JArr [])),
     {| store := [];
        log := [EvGenerateContent
                  (provider_request
                     "Generate 5 interview questions for a Backend Developer with 2 years of experience on ");
                EvJSONParse "[]"] |}).
Proof.
  repeat split. left. reflexivity.
Qed.
